(** * display.py of WeakLensingDeblending: a shallow embedding

    The script [display.py] selects simulated objects, resolves a viewport,
    scales two pixel layers and blends them, and collects overlay geometry.

    Numbers.  Python's [float] is idealised as an exact number.  Values
    that the script only sends through [+ - * /], [floor], [ceil],
    comparisons and decimal formatting are rationals ([Q], executable).
    Values that meet [sqrt] or [pi] are reals ([R]).  Rounding error,
    overflow, infinities and NaN of IEEE arithmetic are outside the model,
    and so is a division by zero: the pixel scale of a survey, the dpi and
    the width of a clipping interval are taken to be non-zero where they
    divide.  The arithmetic of the worked scenarios is also evaluated in
    IEEE binary64 ([Binary64] below), where it gives the same numbers. *)

From Stdlib Require Import ZArith NArith QArith Qround Qabs Qpower Qminmax.
From Stdlib Require Import Reals Qreals Psatz.
From Stdlib Require PrimFloat.

(** A decimal literal such as 0.2 stands for the nearest double, as in Python. *)
Set Warnings "-inexact-float".
From Stdlib Require Import List String Ascii Bool Sorted.
Import ListNotations.

Open Scope string_scope.
Open Scope Q_scope.

(** ** Python built-ins used by the script *)

Module Py.

(** Exceptions the script can meet. *)
Inductive exc : Type :=
| ValueError
| AssertionError
| IndexError
| RuntimeError (msg : string)
| InvalidSelectionError.

Definition is_space (c : ascii) : bool :=
  match c with
  | " "%char | "009"%char | "010"%char | "011"%char | "012"%char | "013"%char => true
  | _ => false
  end.

(** The value of a decimal digit: the characters 48 to 57. *)
Definition digit_of (c : ascii) : option N :=
  let code := N_of_ascii c in
  if ((48 <=? code) && (code <=? 57))%N then Some (code - 48)%N else None.

(** The character of a digit; only used below 10. *)
Definition digit_char (d : N) : ascii := ascii_of_N (48 + N.min d 9).

(** [s.lstrip()] and [s.strip()]. *)
Fixpoint lstrip (s : string) : string :=
  match s with
  | String c t => if is_space c then lstrip t else s
  | EmptyString => EmptyString
  end.

Fixpoint rev_append (s acc : string) : string :=
  match s with
  | String c t => rev_append t (String c acc)
  | EmptyString => acc
  end.

Definition rev (s : string) : string := rev_append s "".

Definition strip (s : string) : string := rev (lstrip (rev (lstrip s))).

(** Reads the longest prefix of decimal digits: the number read so far,
    how many digits were read, and the rest of the string. *)
Fixpoint read_digits (s : string) (acc : N) (cnt : nat) : N * nat * string :=
  match s with
  | String c t =>
      match digit_of c with
      | Some d => read_digits t (10 * acc + d)%N (S cnt)
      | None => (acc, cnt, s)
      end
  | EmptyString => (acc, cnt, s)
  end.

Definition read_sign (s : string) : bool * string :=
  match s with
  | String "-" t => (true, t)
  | String "+" t => (false, t)
  | _ => (false, s)
  end.

(** The exponent part of a float literal: nothing, or [e] or [E], a sign
    and at least one digit, up to the end of the string. *)
Definition read_exponent (s : string) : option Z :=
  match s with
  | EmptyString => Some 0%Z
  | String c t =>
      if (Ascii.eqb c "e" || Ascii.eqb c "E")%bool then
        let '(neg, t1) := read_sign t in
        match read_digits t1 0%N 0 with
        | (_, O, _) => None
        | (e, S _, EmptyString) => Some (if neg then - Z.of_N e else Z.of_N e)%Z
        | (_, S _, String _ _) => None
        end
      else None
  end.

(** [float(s)] on a string: surrounding white space, a sign, digits with
    an optional point (a digit on one side at least) and an optional
    exponent.  [None] is Python's [ValueError].  The literals [inf] and
    [nan] have no exact value and are not accepted here. *)
Definition float (s : string) : option Q :=
  let '(neg, s1) := read_sign (strip s) in
  let '(ip, ni, s2) := read_digits s1 0%N 0 in
  let '(m, nf, s3) :=
    match s2 with
    | String "." t => read_digits t ip 0
    | _ => (ip, O, s2)
    end in
  match (ni + nf)%nat with
  | O => None
  | S _ =>
      match read_exponent s3 with
      | None => None
      | Some e =>
          let v := inject_Z (Z.of_N m) * (10 # 1) ^ (e - Z.of_nat nf) in
          Some (if neg then - v else v)
      end
  end.

(** [s.split(sep)] for a one-character separator. *)
Fixpoint split_aux (sep : ascii) (s : string) (cur : string) : list string :=
  match s with
  | EmptyString => [rev cur]
  | String c t =>
      if Ascii.eqb c sep then rev cur :: split_aux sep t ""
      else split_aux sep t (String c cur)
  end.

Definition split (sep : ascii) (s : string) : list string := split_aux sep s "".

(** [s[0]] and [s[-1]]; [None] is Python's [IndexError] on the empty string. *)
Definition first_char (s : string) : option ascii :=
  match s with String c _ => Some c | EmptyString => None end.

Fixpoint last_char (s : string) : option ascii :=
  match s with
  | EmptyString => None
  | String c EmptyString => Some c
  | String _ t => last_char t
  end.

(** [s[:-1]] and [s[1:-1]]. *)
Fixpoint drop_last (s : string) : string :=
  match s with
  | EmptyString => EmptyString
  | String _ EmptyString => EmptyString
  | String c t => String c (drop_last t)
  end.

Definition slice_1_m1 (s : string) : string :=
  match s with
  | EmptyString => EmptyString
  | String _ t => drop_last t
  end.

(** Decimal digits of a natural number, most significant first. *)
Fixpoint digits_fuel (fuel : nat) (n : N) (acc : string) : string :=
  match fuel with
  | O => acc
  | S f =>
      let acc' := String (digit_char (n mod 10)) acc in
      if (n <? 10)%N then acc' else digits_fuel f (n / 10)%N acc'
  end.

Definition string_of_N (n : N) : string :=
  digits_fuel (S (N.to_nat (N.log2 n))) n "".

(** Exactly [k] decimal digits of [n], with leading zeros. *)
Fixpoint fixed_digits (k : nat) (n : N) (acc : string) : string :=
  match k with
  | O => acc
  | S k' => fixed_digits k' (n / 10)%N (String (digit_char (n mod 10)) acc)
  end.

(** [int(x)] on a float, which ['%d' % x] applies: rounding towards zero. *)
Definition int_of_float (x : Q) : Z := Z.quot (Qnum x) (Z.pos (Qden x)).

(** ['%d' % z]. *)
Definition format_d (z : Z) : string :=
  ((if (z <? 0)%Z then "-" else "") ++ string_of_N (Z.abs_N z))%string.

(** Rounding to the nearest integer, ties to the even one, which is how
    the decimal conversion behind ['%f'] rounds. *)
Definition round_half_even (q : Q) : Z :=
  let f := Qfloor q in
  match Qcompare (q - inject_Z f) (1 # 2) with
  | Lt => f
  | Gt => (f + 1)%Z
  | Eq => if Z.even f then f else (f + 1)%Z
  end.

(** ['%f' % x]: six digits after the point. *)
Definition format_f (x : Q) : string :=
  let m := Z.to_N (round_half_even (Qabs x * inject_Z 1000000)) in
  ((if Qlt_le_dec x 0 then "-" else "")
     ++ string_of_N (m / 1000000)%N ++ "." ++ fixed_digits 6 (m mod 1000000)%N "")%string.


End Py.

(** ** galsim: integer bounds and images

    galsim is an external library.  Its integer bounds are inclusive on
    both ends; bounds with [xmin > xmax] or [ymin > ymax] are undefined
    and have area 0. *)

Module Galsim.

Record BoundsI : Type := mkBoundsI {
  xmin : Z;
  xmax : Z;
  ymin : Z;
  ymax : Z
}.

Definition isDefined (b : BoundsI) : bool :=
  ((xmin b <=? xmax b) && (ymin b <=? ymax b))%Z.

Definition undefined : BoundsI := mkBoundsI 0 (-1) 0 (-1).

Definition area (b : BoundsI) : Z :=
  if isDefined b then ((xmax b - xmin b + 1) * (ymax b - ymin b + 1))%Z else 0%Z.

(** [b1 & b2]. *)
Definition intersect (b1 b2 : BoundsI) : BoundsI :=
  if (isDefined b1 && isDefined b2)%bool then
    let b := mkBoundsI (Z.max (xmin b1) (xmin b2)) (Z.min (xmax b1) (xmax b2))
                       (Z.max (ymin b1) (ymin b2)) (Z.min (ymax b1) (ymax b2)) in
    if isDefined b then b else undefined
  else undefined.

Definition includes (b : BoundsI) (x y : Z) : bool :=
  ((xmin b <=? x) && (x <=? xmax b) && (ymin b <=? y) && (y <=? ymax b))%Z.

(** An image: its bounds and the value of the pixel at [(x, y)]. *)
Record Image : Type := mkImage {
  bounds : BoundsI;
  pixel : Z -> Z -> Q
}.

(** [galsim.Image(bounds = b, ...)]: a zero-filled image. *)
Definition zeros (b : BoundsI) : Image := mkImage b (fun _ _ => 0).

(** [dst[overlap] = src[overlap]]. *)
Definition assign (dst : Image) (overlap : BoundsI) (src : Image) : Image :=
  mkImage (bounds dst)
    (fun x y => if includes overlap x y then pixel src x y else pixel dst x y).

(** The integers [lo], [lo + 1], ..., [hi]. *)
Definition zrange (lo hi : Z) : list Z :=
  map (fun i => (lo + Z.of_nat i)%Z) (seq 0 (Z.to_nat (hi - lo + 1))).

(** [image.array], row after row. *)
Definition array (im : Image) : list Q :=
  let b := bounds im in
  flat_map (fun y => map (fun x => pixel im x y) (zrange (xmin b) (xmax b)))
           (zrange (ymin b) (ymax b)).

End Galsim.

(** ** numpy *)

Module Np.

Definition nonzero (q : Q) : bool := negb (Qeq_bool q 0).

Definition count_nonzero (a : list Q) : nat := List.length (filter nonzero a).

Definition any (m : list bool) : bool := existsb (fun b => b) m.

(** [np.logical_or] of two masks, which have the same length here. *)
Fixpoint logical_or (m1 m2 : list bool) : list bool :=
  match m1, m2 with
  | b1 :: t1, b2 :: t2 => (b1 || b2)%bool :: logical_or t1 t2
  | _, _ => []
  end.

(** [np.arange(n)[mask]]: the positions where the mask is true. *)
Fixpoint indices_from (i : nat) (m : list bool) : list nat :=
  match m with
  | [] => []
  | true :: t => i :: indices_from (S i) t
  | false :: t => indices_from (S i) t
  end.

Definition where_true (m : list bool) : list nat := indices_from 0 m.

(** [np.clip(p, lo, hi)] is [minimum(hi, maximum(p, lo))]. *)
Definition clip (p lo hi : R) : R := Rmin hi (Rmax p lo).

(** [np.degrees]. *)
Definition degrees (x : R) : R := (x * 180 / PI)%R.

(** [arr[i] = v] on an array made by [np.empty]: a slot holds [None]
    until it is written. *)
Definition empty {A : Type} (n : nat) : list (option A) := repeat None n.

Fixpoint set_item {A : Type} (arr : list (option A)) (i : nat) (v : A) : list (option A) :=
  match arr, i with
  | [], _ => []
  | _ :: t, O => Some v :: t
  | h :: t, S j => h :: set_item t j v
  end.

End Np.

(** ** descwl: the object table and its predicate evaluator

    The package [descwl] belongs to the repository but only its caller
    [display.py] is among the sources. *)

Module Descwl.

(** Modelled from the spec: the ObjectTable row of the data model (section 3);
    [descwl]'s table is not among the sources. *)
Record Row : Type := mkRow {
  db_id : Z;
  grp_id : Z;
  dx : Q;
  dy : Q;
  a : Q;
  b : Q;
  beta : Q;
  match_ : Z
}.

(** Modelled from the spec: the value of a named column of a row, [None]
    for a name outside the table schema. *)
Definition column (name : string) (r : Row) : option Q :=
  if String.eqb name "db_id" then Some (inject_Z (db_id r))
  else if String.eqb name "grp_id" then Some (inject_Z (grp_id r))
  else if String.eqb name "dx" then Some (dx r)
  else if String.eqb name "dy" then Some (dy r)
  else if String.eqb name "a" then Some (a r)
  else if String.eqb name "b" then Some (b r)
  else if String.eqb name "beta" then Some (beta r)
  else if String.eqb name "match" then Some (inject_Z (match_ r))
  else None.

Definition in_schema (name : string) : bool :=
  match column name (mkRow 0 0 0 0 0 0 0 0) with Some _ => true | None => false end.

Inductive operator : Type := OpEq | OpNe | OpGe | OpLe | OpGt | OpLt.

(** Modelled from the spec: a cut expression is [NONE], [ALL] (or empty),
    or [<column><operator><value>] (section 4.1). *)
Inductive cut : Type :=
| CutNone
| CutAll
| CutCompare (col : string) (op : operator) (value : Q).

Definition is_op_char (c : ascii) : bool :=
  (Ascii.eqb c "=" || Ascii.eqb c "!" || Ascii.eqb c "<" || Ascii.eqb c ">")%bool.

(** The operator that starts with [c]: followed by [=], or on its own. *)
Definition two_char (c : ascii) : option operator :=
  if Ascii.eqb c "=" then Some OpEq
  else if Ascii.eqb c "!" then Some OpNe
  else if Ascii.eqb c ">" then Some OpGe
  else if Ascii.eqb c "<" then Some OpLe
  else None.

Definition one_char (c : ascii) : option operator :=
  if Ascii.eqb c ">" then Some OpGt
  else if Ascii.eqb c "<" then Some OpLt
  else None.

(** Splits [<column><operator><value>] at the first operator character;
    [col] holds the column name read so far, last character first. *)
Fixpoint split_operator (s : string) (col : string) : option (string * operator * string) :=
  match s with
  | EmptyString => None
  | String c t =>
      if is_op_char c then
        match t with
        | String c2 v =>
            if Ascii.eqb c2 "="
            then option_map (fun op => (Py.rev col, op, v)) (two_char c)
            else option_map (fun op => (Py.rev col, op, t)) (one_char c)
        | EmptyString => option_map (fun op => (Py.rev col, op, t)) (one_char c)
        end
      else split_operator t (String c col)
  end.

(** Modelled from the spec: parsing of one cut expression; [None] is
    [InvalidSelectionError] (unknown column or malformed cut). *)
Definition parse_cut (s : string) : option cut :=
  if String.eqb s "NONE" then Some CutNone
  else if (String.eqb s "ALL" || String.eqb s "")%bool then Some CutAll
  else
    match split_operator s "" with
    | Some (col, op, v) =>
        if in_schema col then
          match Py.float v with
          | Some q => Some (CutCompare col op q)
          | None => None
          end
        else None
    | None => None
    end.

Definition compare (op : operator) (x v : Q) : bool :=
  match op with
  | OpEq => Qeq_bool x v
  | OpNe => negb (Qeq_bool x v)
  | OpGe => Qle_bool v x
  | OpLe => Qle_bool x v
  | OpGt => negb (Qle_bool x v)
  | OpLt => negb (Qle_bool v x)
  end.

Definition passes (c : cut) (r : Row) : bool :=
  match c with
  | CutNone => false
  | CutAll => true
  | CutCompare col op v =>
      match column col r with
      | Some x => compare op x v
      | None => false
      end
  end.

Inductive mode : Type := And | Or.

Fixpoint parse_cuts (cuts : list string) : option (list cut) :=
  match cuts with
  | [] => Some []
  | s :: t =>
      match parse_cut s, parse_cuts t with
      | Some c, Some cs => Some (c :: cs)
      | _, _ => None
      end
  end.

(** Modelled from the spec: [results.select] on the given cuts with
    [mode = m] and [format = 'mask'], a boolean mask with one entry per
    table row (section 4.1). *)
Definition select (table : list Row) (cuts : list string) (m : mode) : option (list bool) :=
  match parse_cuts cuts with
  | Some cs =>
      Some (map (fun r =>
                   match m with
                   | And => forallb (fun c => passes c r) cs
                   | Or => existsb (fun c => passes c r) cs
                   end) table)
  | None => None
  end.

(** Modelled from the spec: a row of the external detection catalog, read
    by field name; [None] for a field the catalog does not have. *)
Definition Detection : Type := string -> option Q.

(** Modelled from the spec: the survey descriptor of the results provider
    (section 6). *)
Record Survey : Type := mkSurvey {
  pixel_scale : Q;
  image_width : Z;
  image_height : Z;
  mean_sky_level : Q;
  image : Galsim.Image
}.

(** Modelled from the spec: the results provider's data (section 6).
    [stamps] tells whether per-object pixel stamps were retained. *)
Record Results : Type := mkResults {
  survey : Survey;
  table : list Row;
  stamps : bool
}.

Definition num_objects (r : Results) : nat := List.length (table r).

End Descwl.

(** ** display.py *)

Module Display.

(** The command-line options, with the names argparse gives them.  The
    [--verbose] diagnostics only print and are left out. *)
Record Args : Type := mkArgs {
  no_display : bool;
  output_name : option string;
  galaxy : list Z;
  group : list Z;
  select : list string;
  select_region : option string;
  match_catalog : option string;
  match_color : string;
  match_info : option string;
  magnification : Q;
  crop : bool;
  view_region : option string;
  draw_moments : bool;
  info : option string;
  no_crosshair : bool;
  clip_lo_noise_fraction : Q;
  clip_hi_percentile : Q;
  hide_background : bool;
  hide_selected : bool;
  add_noise : option Z;
  clip_noise : Q;
  info_size : string;
  dpi : Q;
  max_view_size : Z;
  colormap : string;
  highlight : string;
  crosshair_color : string;
  ellipse_color : string;
  info_color : string;
  outline_color : option string
}.

(** The defaults of the argument parser. *)
Definition default_args : Args := {|
  no_display := false; output_name := None;
  galaxy := []; group := []; select := []; select_region := None;
  match_catalog := None; match_color := "black"; match_info := None;
  magnification := 1; crop := false; view_region := None;
  draw_moments := false; info := None; no_crosshair := false;
  clip_lo_noise_fraction := 1 # 10; clip_hi_percentile := 90;
  hide_background := false; hide_selected := false;
  add_noise := None; clip_noise := - (1);
  info_size := "large"; dpi := 64; max_view_size := 2048;
  colormap := "YlGnBu"; highlight := "red";
  crosshair_color := "greenyellow"; ellipse_color := "greenyellow";
  info_color := "green"; outline_color := None
|}.

(** Python's truth value of an optional string and of an optional integer. *)
Definition truthy_str (s : option string) : bool :=
  match s with
  | Some (String _ _) => true
  | _ => false
  end.

Definition truthy_int (z : option Z) : bool :=
  match z with
  | Some v => negb (v =? 0)%Z
  | None => false
  end.

Definition RGB : Type := (R * R * R)%type.

(** What the script draws, in the order of the calls. *)
Inductive directive : Type :=
| Imshow (rgb : Z -> Z -> RGB) (extent : Z * Z * Z * Z)
| Plot (x y : Q) (marker color : string)
| Annotate (text : string) (x y : Q) (color fontsize : string) (outline : option string)
| Ellipses (widths heights : list (option Q)) (angles : list (option R))
           (offsets : list (option (Q * Q))) (edgecolor : string)
| MatchEllipses (widths heights angles : list (option Q))
                (offsets : list (option (Q * Q))) (edgecolor : string)
| Savefig (name : string) (dpi : Q)
| Show.

Record Figure : Type := mkFigure {
  figsize : Q * Q;
  axis : Q * Q * Q * Q;
  drawn : list directive
}.

(** The collaborators of the script: the results provider, the catalog
    matcher, numpy's percentile, matplotlib's colours and Python's string
    interpolation.  [from_args] gives the message of a [RuntimeError] or the
    results; [interpolate_row] and [interpolate_detection] give [None] for
    an [IndexError]. *)
Record Collaborators : Type := mkCollaborators {
  from_args : Args -> string + Descwl.Results;
  results_add_noise : Z -> Descwl.Results -> Descwl.Results;
  match_sextractor : string -> Descwl.Results -> list Descwl.Detection * Descwl.Results;
  get_subimage : Descwl.Results -> list nat -> option Galsim.Image;
  percentile : list Q -> Q -> Q;
  get_cmap : string -> R -> RGB;
  to_rgb : string -> RGB;
  interpolate_row : string -> Descwl.Row -> option string;
  interpolate_detection : string -> Descwl.Detection -> option string;
  string_escape : string -> string;
  repr : string -> string
}.

(** *** Control flow: printed lines, early returns and exceptions *)

(** The [return] statements of [main] that end the script early. *)
Inductive site : Type :=
| NothingRequested       (* line 119 *)
| NoPixelsVisible        (* line 122 *)
| LoadFailed             (* line 132 *)
| InvalidSelectRegion    (* line 154 *)
| NoStamps               (* line 183 *)
| InvalidViewRegion      (* line 199 *)
| ViewTooLarge           (* line 232 *)
| EmptyView              (* line 255 *)
| InvalidAnnotateFormat  (* line 349 *)
| InvalidMatchFormat.    (* line 361 *)

(** Execution goes on with a value, [main] returns a code at one of its
    [return] statements, or an exception leaves [main]. *)
Inductive outcome (A : Type) : Type :=
| Next (a : A)
| Return (code : Z) (at_ : site)
| Raised (e : Py.exc).

Arguments Next {A} a.
Arguments Return {A} code at_.
Arguments Raised {A} e.

(** A step gives its outcome and the lines it printed. *)
Definition M (A : Type) : Type := (outcome A * list string)%type.

Definition ret {A : Type} (a : A) : M A := (Next a, []).

Definition bind {A B : Type} (m : M A) (k : A -> M B) : M B :=
  match m with
  | (Next a, out) => let '(r, out') := k a in (r, (out ++ out')%list)
  | (Return c w, out) => (Return c w, out)
  | (Raised e, out) => (Raised e, out)
  end.

Definition print (line : string) : M unit := (Next tt, [line]).
Definition exit {A : Type} (code : Z) (at_ : site) : M A := (Return code at_, []).
Definition raise {A : Type} (e : Py.exc) : M A := (Raised e, []).
Definition when (c : bool) (m : M unit) : M unit := if c then m else ret tt.

Notation "x <- m ;; k" := (bind m (fun x => k))
  (at level 61, m at next level, right associativity).
Notation "m ;;; k" := (bind m (fun _ => k))
  (at level 61, right associativity).

Fixpoint foldM {A S : Type} (f : S -> A -> M S) (l : list A) (s : S) : M S :=
  match l with
  | [] => ret s
  | x :: t => s' <- f s x ;; foldM f t s'
  end.

(** *** Regions given on the command line (lines 147-155 and 192-199) *)

Definition Qlt_bool (x y : Q) : bool := negb (Qle_bool y x).

Fixpoint floats (tokens : list string) : option (list Q) :=
  match tokens with
  | [] => Some []
  | t :: ts =>
      match Py.float t, floats ts with
      | Some q, Some qs => Some (q :: qs)
      | _, _ => None
      end
  end.

(** The body of the [try] block: the brackets are asserted, the four
    numbers are read, the order of the bounds is asserted. *)
Definition parse_region (s : string) : Py.exc + (Q * Q * Q * Q) :=
  match Py.first_char s, Py.last_char s with
  | Some c0, Some c1 =>
      if (Ascii.eqb c0 "[" && Ascii.eqb c1 "]")%bool then
        match floats (Py.split "," (Py.slice_1_m1 s)) with
        | Some [xmin; xmax; ymin; ymax] =>
            if (Qlt_bool xmin xmax && Qlt_bool ymin ymax)%bool
            then inr (xmin, xmax, ymin, ymax)
            else inl Py.AssertionError
        | _ => inl Py.ValueError
        end
      else inl Py.AssertionError
  | _, _ => inl Py.IndexError
  end.

(** [except (ValueError, AssertionError)]: print and return -1; another
    exception leaves [main]. *)
Definition region_or_exit (what : string) (at_ : site) (s : string) : M (Q * Q * Q * Q) :=
  match parse_region s with
  | inr r => ret r
  | inl Py.ValueError | inl Py.AssertionError =>
      print ("Invalid " ++ what ++ " xmin,xmax,ymin,ymax = " ++ s ++ ".")%string ;;;
      exit (-1) at_
  | inl e => raise e
  end.

(** The four cuts that stand for a select region (line 155). *)
Definition region_cuts (r : Q * Q * Q * Q) : list string :=
  let '(xmin, xmax, ymin, ymax) := r in
  [ "dx>=" ++ Py.format_f xmin; "dx<" ++ Py.format_f xmax;
    "dy>=" ++ Py.format_f ymin; "dy<" ++ Py.format_f ymax ]%string.

(** [args.select] after the select region was taken into account. *)
Definition extend_select (args : Args) : M (list string) :=
  match select_region args with
  | Some (String _ _ as s) =>
      r <- region_or_exit "select-region" InvalidSelectRegion s ;;
      ret (select args ++ region_cuts r)%list
  | _ => ret (select args)
  end.

(** *** Object selection (lines 157-176) *)

Definition results_select (res : Descwl.Results) (cuts : list string) (m : Descwl.mode)
  : M (list bool) :=
  match Descwl.select (Descwl.table res) cuts m with
  | Some mask => ret mask
  | None => raise Py.InvalidSelectionError
  end.

Definition group_warning (identifier : Z) : string :=
  ("WARNING: no group found with ID " ++ Py.format_d identifier ++ ".")%string.

Definition galaxy_warning (identifier : Z) : string :=
  ("WARNING: no galaxy found with ID " ++ Py.format_d identifier ++ ".")%string.

Definition add_group (res : Descwl.Results) (selection : list bool) (identifier : Z)
  : M (list bool) :=
  selected <- results_select res ["grp_id==" ++ Py.format_d identifier]%string Descwl.And ;;
  when (negb (Np.any selected))
       (print (group_warning identifier)) ;;;
  ret (Np.logical_or selection selected).

Definition add_galaxy (res : Descwl.Results) (selection : list bool) (identifier : Z)
  : M (list bool) :=
  selected <- results_select res ["db_id==" ++ Py.format_d identifier]%string Descwl.And ;;
  when (negb (Np.any selected))
       (print (galaxy_warning identifier)) ;;;
  ret (Np.logical_or selection selected).

(** Lines 158-163: the cuts combined with AND, or nothing. *)
Definition initial_selection (res : Descwl.Results) (cuts : list string) : M (list bool) :=
  match cuts with
  | _ :: _ => results_select res cuts Descwl.And
  | [] => results_select res ["NONE"] Descwl.And
  end.

Definition select_objects (res : Descwl.Results) (cuts : list string)
           (groups galaxies : list Z) : M (list bool) :=
  selection <- initial_selection res cuts ;;
  selection <- foldM (add_group res) groups selection ;;
  foldM (add_galaxy res) galaxies selection.

Definition perform_selection (args : Args) (res : Descwl.Results) (cuts : list string)
  : M (list bool) :=
  select_objects res cuts (group args) (galaxy args).

(** *** Viewing bounds (lines 188-215) *)

(** [pixel = physical/scale + 0.5*image_dimension]: pixels relative to
    the bottom-left corner. *)
Definition to_pixels (scale : Q) (dimension : Z) (v : Q) : Q :=
  v / scale + (1 # 2) * inject_Z dimension.

(** The integer bounds of the pixels to show and the floating-point
    bounds [xmin, xmax, ymin, ymax] of the axes. *)
Record View : Type := mkView {
  view_bounds : Galsim.BoundsI;
  vxmin : Q;
  vxmax : Q;
  vymin : Q;
  vymax : Q
}.

Definition view_of_region (scale : Q) (width height : Z) (r : Q * Q * Q * Q) : View :=
  let '(xmin, xmax, ymin, ymax) := r in
  let xmin := to_pixels scale width xmin in
  let xmax := to_pixels scale width xmax in
  let ymin := to_pixels scale height ymin in
  let ymax := to_pixels scale height ymax in
  mkView (Galsim.mkBoundsI (Qfloor xmin) (Qceiling xmax - 1)
                           (Qfloor ymin) (Qceiling ymax - 1))
         xmin xmax ymin ymax.


Definition view_of_bounds (b : Galsim.BoundsI) : View :=
  mkView b (inject_Z (Galsim.xmin b)) (inject_Z (Galsim.xmax b + 1))
           (inject_Z (Galsim.ymin b)) (inject_Z (Galsim.ymax b + 1)).

Definition resolve_view (args : Args) (res : Descwl.Results)
           (selected_image : option Galsim.Image) : M View :=
  let sv := Descwl.survey res in
  match view_region args, crop args, selected_image with
  | Some s, _, _ =>
      r <- region_or_exit "view-window" InvalidViewRegion s ;;
      ret (view_of_region (Descwl.pixel_scale sv) (Descwl.image_width sv)
                          (Descwl.image_height sv) r)
  | None, true, Some im => ret (view_of_bounds (Galsim.bounds im))
  | None, _, _ =>
      ret (mkView (Galsim.bounds (Descwl.image sv))
                  0 (inject_Z (Descwl.image_width sv))
                  0 (inject_Z (Descwl.image_height sv)))
  end.

(** The guard on the size of the figure (lines 226-232). *)
Definition check_view_size (args : Args) (v : View) : M unit :=
  let view_width := vxmax v - vxmin v in
  let view_height := vymax v - vymin v in
  let limit := inject_Z (max_view_size args) in
  if (Qlt_bool limit (view_width * magnification args)
      || Qlt_bool limit (view_height * magnification args))%bool
  then
    print ("Requested view dimensions "
             ++ Py.format_d (Py.int_of_float (view_width * magnification args)) ++ " x "
             ++ Py.format_d (Py.int_of_float (view_height * magnification args))
             ++ " too big. Increase --max-view-size if necessary.")%string ;;;
    exit (-1) ViewTooLarge
  else ret tt.

(** *** Background and highlighted pixels (lines 241-255) *)

Definition copy_overlap (dst src : Galsim.Image) (view : Galsim.BoundsI) : Galsim.Image :=
  let overlap := Galsim.intersect (Galsim.bounds src) view in
  if (Galsim.area overlap >? 0)%Z then Galsim.assign dst overlap src else dst.

Definition background_buffer (args : Args) (res : Descwl.Results) (view : Galsim.BoundsI)
  : Galsim.Image :=
  let background := Galsim.zeros view in
  if negb (hide_background args)
  then copy_overlap background (Descwl.image (Descwl.survey res)) view
  else background.

Definition highlighted_buffer (args : Args) (selected_image : option Galsim.Image)
           (view : Galsim.BoundsI) : Galsim.Image :=
  let highlighted := Galsim.zeros view in
  match selected_image with
  | Some im => if negb (hide_selected args) then copy_overlap highlighted im view
               else highlighted
  | None => highlighted
  end.

Definition all_zero (im : Galsim.Image) : bool :=
  (Np.count_nonzero (Galsim.array im) =? 0)%nat.

(** The test of lines 252-253. *)
Definition empty_view (args : Args) (background highlighted : Galsim.Image) : bool :=
  (all_zero highlighted && (hide_background args || all_zero background))%bool.

Definition empty_view_message : string :=
  "There are no non-zero pixel values in the view window.".

Definition check_not_empty (args : Args) (background highlighted : Galsim.Image) : M unit :=
  if empty_view args background highlighted
  then print empty_view_message ;;; exit (-1) EmptyView
  else ret tt.

(** *** The z scaling (lines 257-283) *)

Definition zscale_warning (n : Z) : string :=
  ("WARNING: using full image for z-scaling since only " ++ Py.format_d n
     ++ " pixel(s) selected.")%string.

(** The pixels whose percentile gives [vmax]. *)
Definition zscale_pixels (res : Descwl.Results) (selected_image : option Galsim.Image)
  : M (list Q) :=
  let full := Galsim.array (Descwl.image (Descwl.survey res)) in
  match selected_image with
  | Some im =>
      if (Galsim.area (Galsim.bounds im) <? 16)%Z
      then print (zscale_warning (Galsim.area (Galsim.bounds im))) ;;; ret full
      else ret (Galsim.array im)
  | None => ret full
  end.

Definition clip_hi (C : Collaborators) (args : Args) (pixels : list Q) : Q :=
  percentile C (filter Np.nonzero pixels) (clip_hi_percentile args).

Definition sky_noise (res : Descwl.Results) : R :=
  sqrt (Q2R (Descwl.mean_sky_level (Descwl.survey res))).

(** [vmin] as line 269 sets it. *)
Definition clip_lo (args : Args) (res : Descwl.Results) : R :=
  (Q2R (clip_lo_noise_fraction args) * sky_noise res)%R.

(** [vmin] as it stands when the background is scaled (lines 279-280). *)
Definition background_clip_lo (args : Args) (res : Descwl.Results) : R :=
  if truthy_int (add_noise args)
  then (Q2R (clip_noise args) * sky_noise res)%R
  else clip_lo args res.

Definition zscale (pixels : R) : R := sqrt pixels.

(** The clipped and scaled value of one pixel (lines 278 and 283). *)
Definition scaled (vmin vmax : R) (p : Q) : R :=
  zscale ((Np.clip (Q2R p) vmin vmax - vmin) / (vmax - vmin)).

Definition z_layer (vmin vmax : R) (im : Galsim.Image) : Z -> Z -> R :=
  fun x y => scaled vmin vmax (Galsim.pixel im x y).

(** *** Alpha blending (lines 285-297) *)

Definition highlight_configured (args : Args) : bool :=
  (negb (String.eqb (highlight args) "") && negb (String.eqb (highlight args) "none"))%bool.

(** [alpha*color + background_rgb*(1.-alpha)] on each channel. *)
Definition blend (alpha : R) (color background_rgb : RGB) : RGB :=
  let '(cr, cg, cb) := color in
  let '(br, bg, bb) := background_rgb in
  (alpha * cr + br * (1 - alpha), alpha * cg + bg * (1 - alpha),
   alpha * cb + bb * (1 - alpha))%R.

Definition final_rgb (C : Collaborators) (args : Args)
           (highlighted_z background_z : Z -> Z -> R) : Z -> Z -> RGB :=
  let background_rgb := fun x y => get_cmap C (colormap args) (background_z x y) in
  if highlight_configured args
  then fun x y => blend (highlighted_z x y) (to_rgb C (highlight args)) (background_rgb x y)
  else background_rgb.

(** *** Markers, labels and ellipses of the selected objects (lines 311-399) *)

(** The arrays of the loop, made by [np.empty], the number of match
    ellipses stored so far, and the drawing calls issued so far. *)
Record Overlay : Type := mkOverlay {
  calls : list directive;
  ellipse_centers : list (option (Q * Q));
  ellipse_widths : list (option Q);
  ellipse_heights : list (option Q);
  ellipse_angles : list (option R);
  match_ellipse_centers : list (option (Q * Q));
  match_ellipse_widths : list (option Q);
  match_ellipse_heights : list (option Q);
  match_ellipse_angles : list (option Q);
  num_match_ellipses : nat
}.

Definition new_overlay (num_selected : nat) : Overlay :=
  mkOverlay [] (Np.empty num_selected) (Np.empty num_selected) (Np.empty num_selected)
            (Np.empty num_selected) (Np.empty num_selected) (Np.empty num_selected)
            (Np.empty num_selected) (Np.empty num_selected) 0.

Definition call (d : directive) (o : Overlay) : Overlay :=
  mkOverlay (calls o ++ [d]) (ellipse_centers o) (ellipse_widths o) (ellipse_heights o)
            (ellipse_angles o) (match_ellipse_centers o) (match_ellipse_widths o)
            (match_ellipse_heights o) (match_ellipse_angles o) (num_match_ellipses o).

(** The centroid of an object in display coordinates (lines 328-329). *)
Definition center (sv : Descwl.Survey) (info : Descwl.Row) : Q * Q :=
  ((1 # 2) * inject_Z (Descwl.image_width sv) + Descwl.dx info / Descwl.pixel_scale sv,
   (1 # 2) * inject_Z (Descwl.image_height sv) + Descwl.dy info / Descwl.pixel_scale sv).

(** The ellipse of an object (lines 368-371): centre, width, height, angle. *)
Definition object_ellipse (sv : Descwl.Survey) (info : Descwl.Row) : Q * Q * Q * Q * R :=
  (center sv info,
   Descwl.a info / Descwl.pixel_scale sv,
   Descwl.b info / Descwl.pixel_scale sv,
   Np.degrees (Q2R (Descwl.beta info))).

Definition store_ellipse (index : nat) (e : Q * Q * Q * Q * R) (o : Overlay) : Overlay :=
  let '(c, w, h, angle) := e in
  mkOverlay (calls o) (Np.set_item (ellipse_centers o) index c)
            (Np.set_item (ellipse_widths o) index w)
            (Np.set_item (ellipse_heights o) index h)
            (Np.set_item (ellipse_angles o) index angle)
            (match_ellipse_centers o) (match_ellipse_widths o)
            (match_ellipse_heights o) (match_ellipse_angles o) (num_match_ellipses o).

(** The [try] block of lines 374-381: the slot [num_match_ellipses] is
    written field after field; a field the catalog lacks raises
    [IndexError], which is passed over with the count unchanged. *)
Definition store_match_ellipse (match_center : Q * Q) (match_info : Descwl.Detection)
           (o : Overlay) : Overlay :=
  let n := num_match_ellipses o in
  let centers := Np.set_item (match_ellipse_centers o) n match_center in
  let with_ (ws : list (option Q)) (hs : list (option Q)) (angs : list (option Q)) (n' : nat) :=
    mkOverlay (calls o) (ellipse_centers o) (ellipse_widths o) (ellipse_heights o)
              (ellipse_angles o) centers ws hs angs n' in
  match match_info "A_IMAGE" with
  | None => with_ (match_ellipse_widths o) (match_ellipse_heights o) (match_ellipse_angles o) n
  | Some w =>
      let ws := Np.set_item (match_ellipse_widths o) n w in
      match match_info "B_IMAGE" with
      | None => with_ ws (match_ellipse_heights o) (match_ellipse_angles o) n
      | Some h =>
          let hs := Np.set_item (match_ellipse_heights o) n h in
          match match_info "THETA_IMAGE" with
          | None => with_ ws hs (match_ellipse_angles o) n
          | Some t => with_ ws hs (Np.set_item (match_ellipse_angles o) n t) (S n)
          end
      end
  end.

(** The detected object matched to a row, if any (lines 324-326). *)
Definition lookup_match (args : Args) (detected : list Descwl.Detection) (info : Descwl.Row)
  : M (option Descwl.Detection) :=
  if (truthy_str (match_catalog args) && (0 <=? Descwl.match_ info)%Z)%bool then
    match nth_error detected (Z.to_nat (Descwl.match_ info)) with
    | Some d => ret (Some d)
    | None => raise Py.IndexError
    end
  else ret None.

(** Its centre (lines 331-332). *)
Definition match_center (match_info : Descwl.Detection) : M (Q * Q) :=
  match match_info "X_IMAGE", match_info "Y_IMAGE" with
  | Some x, Some y => ret (x - (1 # 2), y - (1 # 2))
  | _, _ => raise Py.IndexError
  end.

(** One round of the loop over [enumerate(selected_indices)].  [info_fmt]
    and [match_fmt] are the two format strings after unescaping. *)
Definition annotate (C : Collaborators) (args : Args) (res : Descwl.Results)
           (detected : list Descwl.Detection) (info_fmt match_fmt : option string)
           (o : Overlay) (item : nat * nat) : M Overlay :=
  let '(index, selected) := item in
  let sv := Descwl.survey res in
  info <- match nth_error (Descwl.table res) selected with
          | Some r => ret r
          | None => raise Py.IndexError
          end ;;
  match_info <- lookup_match args detected info ;;
  let '(x_center, y_center) := center sv info in
  mc <- match match_info with
        | Some d => c <- match_center d ;; ret (Some (d, c))
        | None => ret None
        end ;;
  let o :=
    if no_crosshair args then o
    else
      let o := call (Plot x_center y_center "+" (crosshair_color args)) o in
      match mc with
      | Some (_, (xm, ym)) => call (Plot xm ym "x" (match_color args)) o
      | None => o
      end in
  o <- match info_fmt with
       | Some (String _ _ as fmt) =>
           match interpolate_row C fmt info with
           | Some annotation =>
               ret (call (Annotate annotation x_center y_center (info_color args)
                                   (info_size args) (outline_color args)) o)
           | None => print ("Invalid annotate-format " ++ repr C fmt)%string ;;;
                     exit (-1) InvalidAnnotateFormat
           end
       | _ => ret o
       end ;;
  o <- match mc, match_fmt with
       | Some (d, (xm, ym)), Some (String _ _ as fmt) =>
           match interpolate_detection C fmt d with
           | Some annotation =>
               ret (call (Annotate annotation xm ym (info_color args)
                                   (info_size args) (outline_color args)) o)
           | None => print ("Invalid match-format " ++ repr C fmt)%string ;;;
                     exit (-1) InvalidMatchFormat
           end
       | _, _ => ret o
       end ;;
  if draw_moments args then
    let o := store_ellipse index (object_ellipse sv info) o in
    match mc with
    | Some (d, c) => ret (store_match_ellipse c d o)
    | None => ret o
    end
  else ret o.

Fixpoint enumerate_from {A : Type} (i : nat) (l : list A) : list (nat * A) :=
  match l with
  | [] => []
  | x :: t => (i, x) :: enumerate_from (S i) t
  end.

(** The ellipse collections (lines 383-399). *)
Definition draw_ellipses (args : Args) (o : Overlay) : Overlay :=
  if draw_moments args then
    let o := call (Ellipses (ellipse_widths o) (ellipse_heights o) (ellipse_angles o)
                            (ellipse_centers o) (ellipse_color args)) o in
    if (0 <? num_match_ellipses o)%nat
    then call (MatchEllipses (match_ellipse_widths o) (match_ellipse_heights o)
                             (match_ellipse_angles o) (match_ellipse_centers o)
                             (match_color args)) o
    else o
  else o.

(** *** The script *)

Definition unescape (C : Collaborators) (s : option string) : option string :=
  match s with
  | Some (String _ _ as fmt) => Some (string_escape C fmt)
  | other => other
  end.

(** Line 135: noise is added whenever a seed was given. *)
Definition apply_noise (C : Collaborators) (args : Args) (results : Descwl.Results)
  : Descwl.Results :=
  match add_noise args with
  | Some seed => results_add_noise C seed results
  | None => results
  end.

(** What lines 117-232 hand over to the drawing part. *)
Record Prepared : Type := mkPrepared {
  results : Descwl.Results;
  detected : list Descwl.Detection;
  selected_indices : list nat;
  selected_image : option Galsim.Image;
  view : View
}.

Definition prepare (C : Collaborators) (args : Args) : M Prepared :=
  when (no_display args && negb (truthy_str (output_name args)))
       (print "No display our output requested." ;;; exit 0 NothingRequested) ;;;
  when (hide_background args && hide_selected args)
       (print "No pixels visible with --hide-background and --hide-selected." ;;;
        exit 0 NoPixelsVisible) ;;;
  results <- match from_args C args with
             | inr r => ret r
             | inl msg => print msg ;;; exit (-1) LoadFailed
             end ;;
  let results := apply_noise C args results in
  let '(detected, results) :=
    match match_catalog args with
    | Some (String _ _ as file) => match_sextractor C file results
    | _ => ([], results)
    end in
  cuts <- extend_select args ;;
  selection <- perform_selection args results cuts ;;
  let selected_indices := Np.where_true selection in
  when (Np.any selection && negb (Descwl.stamps results))
       (print "Cannot display selected objects without any stamps available." ;;;
        exit (-1) NoStamps) ;;;
  let selected_image := get_subimage C results selected_indices in
  view <- resolve_view args results selected_image ;;
  check_view_size args view ;;;
  ret (mkPrepared results detected selected_indices selected_image view).

(** The two pixel buffers of lines 242-251. *)
Definition background (args : Args) (p : Prepared) : Galsim.Image :=
  background_buffer args (results p) (view_bounds (view p)).

Definition highlighted (args : Args) (p : Prepared) : Galsim.Image :=
  highlighted_buffer args (selected_image p) (view_bounds (view p)).

(** Lines 257-405, once the view is known not to be empty. *)
Definition draw (C : Collaborators) (args : Args) (p : Prepared) : M Figure :=
  let v := view p in
  let fig_height := magnification args * ((vymax v - vymin v) / dpi args) in
  let fig_width := magnification args * ((vxmax v - vxmin v) / dpi args) in
  pixels <- zscale_pixels (results p) (selected_image p) ;;
  let vmax := Q2R (clip_hi C args pixels) in
  let highlighted_z := z_layer (clip_lo args (results p)) vmax (highlighted args p) in
  let background_z :=
    z_layer (background_clip_lo args (results p)) vmax (background args p) in
  let vb := view_bounds v in
  let extent :=
    (Galsim.xmin vb, (Galsim.xmax vb + 1)%Z, Galsim.ymin vb, (Galsim.ymax vb + 1)%Z) in
  let o := call (Imshow (final_rgb C args highlighted_z background_z) extent)
                (new_overlay (List.length (selected_indices p))) in
  o <- foldM (annotate C args (results p) (detected p)
                       (unescape C (info args)) (unescape C (match_info args)))
             (enumerate_from 0 (selected_indices p)) o ;;
  let o := draw_ellipses args o in
  let o := match output_name args with
           | Some (String _ _ as name) => call (Savefig name (dpi args)) o
           | _ => o
           end in
  let o := if no_display args then o else call Show o in
  ret (mkFigure (fig_width, fig_height) (vxmin v, vxmax v, vymin v, vymax v) (calls o)).

Definition main (C : Collaborators) (args : Args) : M Figure :=
  p <- prepare C args ;;
  check_not_empty args (background args p) (highlighted args p) ;;;
  draw C args p.

End Display.

(** ** Concrete inputs for the scenarios *)

Module Scenario.

Import Display.

(** The parser defaults with some options set. *)
Definition options (view_region select_region : option string) (group galaxy : list Z)
           (hide_background hide_selected draw_moments : bool) (add_noise : option Z)
  : Args := {|
  no_display := false; output_name := None;
  galaxy := galaxy; group := group; select := []; select_region := select_region;
  match_catalog := None; match_color := "black"; match_info := None;
  magnification := 1; crop := false; view_region := view_region;
  draw_moments := draw_moments; info := None; no_crosshair := false;
  clip_lo_noise_fraction := 1 # 10; clip_hi_percentile := 90;
  hide_background := hide_background; hide_selected := hide_selected;
  add_noise := add_noise; clip_noise := - (1);
  info_size := "large"; dpi := 64; max_view_size := 2048;
  colormap := "YlGnBu"; highlight := "red";
  crosshair_color := "greenyellow"; ellipse_color := "greenyellow";
  info_color := "green"; outline_color := None
|}.

(** A survey of 100 x 100 pixels of 0.2 arcsecs, every pixel holding 1,
    with a mean sky level of 1. *)
Definition survey : Descwl.Survey :=
  Descwl.mkSurvey (2 # 10) 100 100 1
    (Galsim.mkImage (Galsim.mkBoundsI 0 99 0 99) (fun _ _ => 1)).

(** Three objects in two groups; the second one sits at [dx = 0.0000006]. *)
Definition table : list Descwl.Row :=
  [ Descwl.mkRow 1 10 0 0 1 (1 # 2) 0 (-1);
    Descwl.mkRow 2 10 (6 # 10000000) 0 1 1 0 (-1);
    Descwl.mkRow 3 20 1 1 2 1 0 (-1) ].

Definition results : Descwl.Results := Descwl.mkResults survey table true.

(** Stand-ins for the collaborators: the results above, no noise, an empty
    catalog, the stamp of every selected object taken as an 8 x 8 image
    (none when nothing is selected), the largest value as percentile, a
    grey colour map and red as the only colour. *)
Definition collaborators : Collaborators := {|
  from_args := fun _ => inr results;
  results_add_noise := fun _ r => r;
  match_sextractor := fun _ r => ([], r);
  get_subimage := fun _ l =>
    match l with
    | [] => None
    | _ :: _ => Some (Galsim.mkImage (Galsim.mkBoundsI 46 53 46 53) (fun _ _ => 2))
    end;
  percentile := fun l _ => fold_right Qmax 0 l;
  get_cmap := fun _ z => (z, z, z);
  to_rgb := fun _ => (1%R, 0%R, 0%R);
  interpolate_row := fun fmt _ => Some fmt;
  interpolate_detection := fun fmt _ => Some fmt;
  string_escape := fun s => s;
  repr := fun s => s
|}.

(** The state handed to the drawing part when the first and the third
    object are selected and the whole image is viewed. *)
Definition prepared : Prepared :=
  mkPrepared results [] [0; 2]%nat
    (Some (Galsim.mkImage (Galsim.mkBoundsI 46 53 46 53) (fun _ _ => 2)))
    (mkView (Galsim.mkBoundsI 0 99 0 99) 0 100 0 100).

(** The same with a selected sub-image of 3 x 3 pixels. *)
Definition small_prepared : Prepared :=
  mkPrepared results [] [0]%nat
    (Some (Galsim.mkImage (Galsim.mkBoundsI 49 51 49 51) (fun _ _ => 2)))
    (mkView (Galsim.mkBoundsI 0 99 0 99) 0 100 0 100).

(** The same with a detection catalog whose only row gives a position but
    no shape, matched to the first object. *)
Definition with_match_catalog (file : string) (a : Args) : Args := {|
  no_display := no_display a; output_name := output_name a;
  galaxy := galaxy a; group := group a; select := select a;
  select_region := select_region a;
  match_catalog := Some file; match_color := match_color a; match_info := match_info a;
  magnification := magnification a; crop := crop a; view_region := view_region a;
  draw_moments := draw_moments a; info := info a; no_crosshair := no_crosshair a;
  clip_lo_noise_fraction := clip_lo_noise_fraction a;
  clip_hi_percentile := clip_hi_percentile a;
  hide_background := hide_background a; hide_selected := hide_selected a;
  add_noise := add_noise a; clip_noise := clip_noise a;
  info_size := info_size a; dpi := dpi a; max_view_size := max_view_size a;
  colormap := colormap a; highlight := highlight a;
  crosshair_color := crosshair_color a; ellipse_color := ellipse_color a;
  info_color := info_color a; outline_color := outline_color a
|}.

Definition position_only : Descwl.Detection :=
  fun field =>
    if String.eqb field "X_IMAGE" then Some (101 # 2)
    else if String.eqb field "Y_IMAGE" then Some (101 # 2)
    else None.

Definition matched_prepared : Prepared :=
  mkPrepared
    (Descwl.mkResults survey
       [ Descwl.mkRow 1 10 0 0 1 (1 # 2) 0 0;
         Descwl.mkRow 2 10 (6 # 10000000) 0 1 1 0 (-1);
         Descwl.mkRow 3 20 1 1 2 1 0 (-1) ] true)
    [position_only] [0; 2]%nat
    (Some (Galsim.mkImage (Galsim.mkBoundsI 46 53 46 53) (fun _ _ => 2)))
    (mkView (Galsim.mkBoundsI 0 99 0 99) 0 100 0 100).

End Scenario.

(** ** The arithmetic of the scenarios in IEEE binary64 *)

Module Binary64.

Import PrimFloat.
#[local] Open Scope float_scope.

(** Lines 201-204 on doubles. *)
Definition to_pixels (scale dimension v : float) : float :=
  v / scale + 0.5 * dimension.

(** Lines 278 and 283 on a double inside the clipping interval. *)
Definition scaled (vmin vmax p : float) : float :=
  sqrt ((p - vmin) / (vmax - vmin)).

(** Line 295 on one channel. *)
Definition blend (alpha color background : float) : float :=
  alpha * color + background * (1 - alpha).

(** The three worked scenarios: pixel bounds 25.0 and 75.0; a normalised
    value of 0.5 and a scaled value between 0.7071 and 0.7072; blended
    channels 0.6 and 0.1. *)
Definition view_scenario : bool :=
  (eqb (to_pixels 0.2 100 (-5)) 25 && eqb (to_pixels 0.2 100 5) 75)%bool.

Definition zscale_scenario : bool :=
  (eqb ((52 - 2) / (102 - 2)) 0.5
   && ltb 0.7071 (scaled 2 102 52) && ltb (scaled 2 102 52) 0.7072)%bool.

Definition blend_scenario : bool :=
  (eqb (blend 0.5 1 0.2) 0.6 && eqb (blend 0.5 0 0.2) 0.1)%bool.

End Binary64.

Import Display.

(** ** Vocabulary of the properties *)


Definition is_zero (q : Q) : Prop := q == 0.

(** The four arrays of the object ellipses. *)
Definition object_arrays (o : Overlay)
  : list (option (Q * Q)) * list (option Q) * list (option Q) * list (option R) :=
  (ellipse_centers o, ellipse_widths o, ellipse_heights o, ellipse_angles o).

(** Every array has room for [n] ellipses. *)
Definition capacity (n : nat) (o : Overlay) : Prop :=
  List.length (ellipse_centers o) = n /\ List.length (ellipse_widths o) = n /\
  List.length (ellipse_heights o) = n /\ List.length (ellipse_angles o) = n.

(** The ellipse stored for the [k]-th selected object. *)
Definition ellipse_at (o : Overlay) (k : nat) : option (Q * Q * Q * Q * R) :=
  match nth_error (ellipse_centers o) k, nth_error (ellipse_widths o) k,
        nth_error (ellipse_heights o) k, nth_error (ellipse_angles o) k with
  | Some (Some c), Some (Some w), Some (Some h), Some (Some t) => Some (c, w, h, t)
  | _, _, _, _ => None
  end.

(** A detection that lacks one of the shape fields. *)
Definition lacks_shape (d : Descwl.Detection) : Prop :=
  d "A_IMAGE" = None \/ d "B_IMAGE" = None \/ d "THETA_IMAGE" = None.

Definition is_match_ellipses (d : directive) : bool :=
  match d with
  | MatchEllipses _ _ _ _ _ => true
  | _ => false
  end.

Definition no_match_ellipses (l : list directive) : Prop :=
  Forall (fun d => is_match_ellipses d = false) l.

(** The image that [draw] shows, given the pixels chosen for the
    percentile. *)
Definition shown_image (C : Collaborators) (args : Args) (p : Prepared) (pixels : list Q)
  : directive :=
  let vmax := Q2R (clip_hi C args pixels) in
  let vb := view_bounds (view p) in
  Imshow (final_rgb C args
            (z_layer (clip_lo args (results p)) vmax (highlighted args p))
            (z_layer (background_clip_lo args (results p)) vmax (background args p)))
         (Galsim.xmin vb, (Galsim.xmax vb + 1)%Z, Galsim.ymin vb, (Galsim.ymax vb + 1)%Z).

(** A string that neither starts nor ends with white space. *)
Definition trimmed (s : string) : Prop :=
  exists c c', Py.first_char s = Some c /\ Py.is_space c = false /\
               Py.last_char s = Some c' /\ Py.is_space c' = false.

(** The pixels whose percentile is taken: those of the selected sub-image
    when there is one of at least 16 pixels, those of the survey image
    otherwise. *)
Definition percentile_source (res : Descwl.Results) (selected : option Galsim.Image)
  : list Q :=
  match selected with
  | Some im =>
      if (16 <=? Galsim.area (Galsim.bounds im))%Z then Galsim.array im
      else Galsim.array (Descwl.image (Descwl.survey res))
  | None => Galsim.array (Descwl.image (Descwl.survey res))
  end.

(** The warning about the fall-back: only for a sub-image that exists and
    has fewer than 16 pixels. *)
Definition fallback_warning (selected : option Galsim.Image) : list string :=
  match selected with
  | Some im =>
      if (16 <=? Galsim.area (Galsim.bounds im))%Z then []
      else [zscale_warning (Galsim.area (Galsim.bounds im))]
  | None => []
  end.

(** The rows whose [key] is the identifier, as a mask. *)
Definition matches (table : list Descwl.Row) (key : Descwl.Row -> Z) (identifier : Z)
  : list bool :=
  map (fun r => (key r =? identifier)%Z) table.

(** No row carries the identifier. *)
Definition unmatched (table : list Descwl.Row) (key : Descwl.Row -> Z) (identifier : Z)
  : Prop :=
  forall r, In r table -> key r <> identifier.

(** A step whose early returns satisfy [P] and whose exceptions satisfy [Q]. *)
Definition ends {A : Type} (P : Z -> site -> Prop) (Q : Py.exc -> Prop) (m : M A) : Prop :=
  match fst m with
  | Next _ => True
  | Return c w => P c w
  | Raised e => Q e
  end.


(** The detections and the results after lines 139-141. *)
Definition matched (C : Collaborators) (args : Args) (res : Descwl.Results)
  : list Descwl.Detection * Descwl.Results :=
  match match_catalog args with
  | Some (String _ _ as file) => match_sextractor C file res
  | _ => ([], res)
  end.




(** A pixel position that lies both in the view and in an image. *)
Definition visible (view : Galsim.BoundsI) (im : Galsim.Image) (x y : Z) : bool :=
  (Galsim.includes view x y && Galsim.includes (Galsim.bounds im) x y)%bool.



Definition is_plot (d : directive) : bool :=
  match d with
  | Plot _ _ _ _ => true
  | _ => false
  end.

(** The marker of a selected object, as opposed to that of its match. *)
Definition is_crosshair (d : directive) : bool :=
  match d with
  | Plot _ _ marker _ => String.eqb marker "+"
  | _ => false
  end.

Definition is_annotate (d : directive) : bool :=
  match d with
  | Annotate _ _ _ _ _ _ => true
  | _ => false
  end.

Definition is_ellipses (d : directive) : bool :=
  match d with
  | Ellipses _ _ _ _ _ | MatchEllipses _ _ _ _ _ => true
  | _ => false
  end.

(** The crosshair of a table row. *)
Definition crosshair (args : Args) (sv : Descwl.Survey) (info : Descwl.Row) : directive :=
  Plot (fst (center sv info)) (snd (center sv info)) "+" (crosshair_color args).

(** The table rows at the given positions. *)
Definition rows_at (table : list Descwl.Row) (indices : list nat) (rows : list Descwl.Row)
  : Prop :=
  Forall2 (fun i row => nth_error table i = Some row) indices rows.

(** What ends the drawing: the file written and the window shown. *)
Definition is_output (d : directive) : bool :=
  match d with
  | Savefig _ _ | Show => true
  | _ => false
  end.

(** ** A scenario with an annotation format *)

Module FormatScenario.

(** Options that label every selected object with [fmt]. *)
Definition with_info (fmt : string) (a : Args) : Args := {|
  no_display := no_display a; output_name := output_name a;
  galaxy := galaxy a; group := group a; select := select a;
  select_region := select_region a;
  match_catalog := match_catalog a; match_color := match_color a;
  match_info := match_info a;
  magnification := magnification a; crop := crop a; view_region := view_region a;
  draw_moments := draw_moments a; info := Some fmt; no_crosshair := no_crosshair a;
  clip_lo_noise_fraction := clip_lo_noise_fraction a;
  clip_hi_percentile := clip_hi_percentile a;
  hide_background := hide_background a; hide_selected := hide_selected a;
  add_noise := add_noise a; clip_noise := clip_noise a;
  info_size := info_size a; dpi := dpi a; max_view_size := max_view_size a;
  colormap := colormap a; highlight := highlight a;
  crosshair_color := crosshair_color a; ellipse_color := ellipse_color a;
  info_color := info_color a; outline_color := outline_color a
|}.

(** Interpolation that knows the key [db_id] only, and fails on every
    format for the object 3. *)
Definition interpolate (fmt : string) (row : Descwl.Row) : option string :=
  if (String.eqb fmt "%(db_id)d" && negb (Descwl.db_id row =? 3)%Z)%bool
  then Some (Py.format_d (Descwl.db_id row))
  else None.

Definition collaborators : Collaborators := {|
  from_args := from_args Scenario.collaborators;
  results_add_noise := results_add_noise Scenario.collaborators;
  match_sextractor := match_sextractor Scenario.collaborators;
  get_subimage := get_subimage Scenario.collaborators;
  percentile := percentile Scenario.collaborators;
  get_cmap := get_cmap Scenario.collaborators;
  to_rgb := to_rgb Scenario.collaborators;
  interpolate_row := interpolate;
  interpolate_detection := interpolate_detection Scenario.collaborators;
  string_escape := string_escape Scenario.collaborators;
  repr := fun s => ("'" ++ s ++ "'")%string
|}.

(** All three objects labelled over the whole image. *)
Definition options : Args :=
  with_info "%(db_id)d" (Scenario.options None None [10; 20]%Z [] false false false None).

End FormatScenario.

(** The identifiers of [l] that no table row carries. *)
Definition missing (table : list Descwl.Row) (key : Descwl.Row -> Z) (l : list Z) : list Z :=
  filter (fun x => negb (existsb (fun r => (key r =? x)%Z) table)) l.

(** The row carries one of the identifiers. *)
Definition listed (key : Descwl.Row -> Z) (l : list Z) (row : Descwl.Row) : bool :=
  existsb (fun x => (key row =? x)%Z) l.

(** * Properties *)

(** ** The viewport transform *)

Section Viewport.

Variable scale : Q.
Hypothesis scale_pos : 0 < scale.





End Viewport.




(** In binary64 the scenario's pixel bounds are 25.0 and 75.0 as well. *)
Example view_scenario_binary64 : Binary64.view_scenario = true.
Proof. reflexivity. Qed.

Lemma resolve_view_region (args : Args) (res : Descwl.Results) (im : option Galsim.Image)
      (s : string) (r : Q * Q * Q * Q) :
  view_region args = Some s ->
  parse_region s = inr r ->
  resolve_view args res im =
    (Next (view_of_region (Descwl.pixel_scale (Descwl.survey res))
                          (Descwl.image_width (Descwl.survey res))
                          (Descwl.image_height (Descwl.survey res)) r), []).
Proof.
  intros Hv Hp. unfold resolve_view, region_or_exit. rewrite Hv, Hp. reflexivity.
Qed.

Lemma parse_scenario_region :
  parse_region "[-5,5,-5,5]" = inr (- (5), 5, - (5), 5).
Proof. reflexivity. Qed.

(** C2, as the code has it: for the region string "[-5,5,-5,5]", a pixel
    scale of 0.2 and an image of 100 x 100 pixels, the floating-point pixel
    bounds are 25.0 and 75.0 on each axis and the integer bounds are
    [25, 74] on each axis. *)
Theorem view_scenario_bounds (args : Args) (res : Descwl.Results) (im : option Galsim.Image) :
  view_region args = Some "[-5,5,-5,5]" ->
  Descwl.pixel_scale (Descwl.survey res) = 2 # 10 ->
  Descwl.image_width (Descwl.survey res) = 100%Z ->
  Descwl.image_height (Descwl.survey res) = 100%Z ->
  exists v,
    resolve_view args res im = (Next v, []) /\
    vxmin v == 25 /\ vxmax v == 75 /\ vymin v == 25 /\ vymax v == 75 /\
    view_bounds v = Galsim.mkBoundsI 25 74 25 74.
Proof.
  intros Hv Hs Hw Hh.
  rewrite (resolve_view_region args res im _ _ Hv parse_scenario_region), Hs, Hw, Hh.
  eexists. split; [reflexivity|]. repeat split; reflexivity.
Qed.

Lemma view_scenario_bounds_witness :
  exists v,
    resolve_view (Scenario.options (Some "[-5,5,-5,5]") None [] [] false false false None)
                 Scenario.results None = (Next v, []) /\
    vxmin v == 25 /\ vxmax v == 75 /\ vymin v == 25 /\ vymax v == 75 /\
    view_bounds v = Galsim.mkBoundsI 25 74 25 74.
Proof.
  apply (view_scenario_bounds
           (Scenario.options (Some "[-5,5,-5,5]") None [] [] false false false None)
           Scenario.results None); reflexivity.
Defined.

(** C2, as the claim has it, fails: the bounds are not 225.0, 275.0 and
    [225, 274]. *)
Lemma view_scenario_not_225 :
  ~ exists v,
      resolve_view (Scenario.options (Some "[-5,5,-5,5]") None [] [] false false false None)
                   Scenario.results None = (Next v, []) /\
      vxmin v == 225 /\ vxmax v == 275 /\ vymin v == 225 /\ vymax v == 275 /\
      view_bounds v = Galsim.mkBoundsI 225 274 225 274.
Proof.
  intros [v [Hv [_ [_ [_ [_ Hb]]]]]].
  rewrite (resolve_view_region
             (Scenario.options (Some "[-5,5,-5,5]") None [] [] false false false None)
             Scenario.results None "[-5,5,-5,5]" _ eq_refl parse_scenario_region) in Hv.
  injection Hv as <-. discriminate Hb.
Qed.

(** ** Control flow *)













(** ** The empty view *)

Lemma count_nonzero_0 (l : list Q) :
  (Np.count_nonzero l =? 0)%nat = true <-> Forall is_zero l.
Proof.
  unfold Np.count_nonzero. rewrite Nat.eqb_eq. induction l as [|q t IH]; cbn.
  - split; [constructor | reflexivity].
  - unfold Np.nonzero at 1. destruct (Qeq_bool q 0) eqn:Hq; cbn.
    + rewrite IH. apply Qeq_bool_iff in Hq. split.
      * intros Ht. constructor; assumption.
      * intros Hf. inversion Hf; assumption.
    + split; [discriminate|]. intros Hf. inversion Hf as [|? ? Hz _]; subst.
      apply Qeq_bool_iff in Hz. congruence.
Qed.






(** ** Ellipses of the selected objects *)

Lemma set_item_length {A : Type} (arr : list (option A)) (i : nat) (v : A) :
  List.length (Np.set_item arr i v) = List.length arr.
Proof.
  revert i. induction arr as [|h t IH]; intros [|j]; cbn; try reflexivity.
  now rewrite IH.
Qed.

Lemma set_item_same {A : Type} (arr : list (option A)) (i : nat) (v : A) :
  (i < List.length arr)%nat -> nth_error (Np.set_item arr i v) i = Some (Some v).
Proof.
  revert i. induction arr as [|h t IH]; intros [|j] Hi; cbn in *; try lia; try reflexivity.
  apply IH. lia.
Qed.

Lemma set_item_other {A : Type} (arr : list (option A)) (i j : nat) (v : A) :
  i <> j -> nth_error (Np.set_item arr i v) j = nth_error arr j.
Proof.
  revert i j. induction arr as [|h t IH]; intros [|i] [|j] Hij; cbn; try reflexivity.
  - congruence.
  - apply IH. congruence.
Qed.

Lemma capacity_store n i e o : capacity n o -> capacity n (store_ellipse i e o).
Proof.
  destruct e as [[[c w] h] t]. unfold capacity; cbn.
  rewrite !set_item_length. tauto.
Qed.

Lemma ellipse_at_store_same n i e o :
  capacity n o -> (i < n)%nat -> ellipse_at (store_ellipse i e o) i = Some e.
Proof.
  destruct e as [[[c w] h] t]. intros (H1 & H2 & H3 & H4) Hi. unfold ellipse_at; cbn.
  rewrite !set_item_same by lia. reflexivity.
Qed.

Lemma ellipse_at_store_other i j e o :
  i <> j -> ellipse_at (store_ellipse i e o) j = ellipse_at o j.
Proof.
  destruct e as [[[c w] h] t]. intros Hij. unfold ellipse_at; cbn.
  rewrite !set_item_other by exact Hij. reflexivity.
Qed.

Lemma object_arrays_call d o : object_arrays (call d o) = object_arrays o.
Proof. reflexivity. Qed.

Lemma object_arrays_store_match c d o :
  object_arrays (store_match_ellipse c d o) = object_arrays o.
Proof.
  unfold store_match_ellipse.
  destruct (d "A_IMAGE"), (d "B_IMAGE"), (d "THETA_IMAGE"); reflexivity.
Qed.

Lemma capacity_arrays n o o' :
  object_arrays o' = object_arrays o -> capacity n o -> capacity n o'.
Proof. unfold object_arrays, capacity. intros H. injection H as -> -> -> ->. tauto. Qed.

Lemma ellipse_at_arrays o o' k :
  object_arrays o' = object_arrays o -> ellipse_at o' k = ellipse_at o k.
Proof. unfold object_arrays, ellipse_at. intros H. injection H as -> -> -> ->. reflexivity. Qed.

(** Case analysis of a step that is known to go on. *)
Ltac step_cases H :=
  repeat first
    [ progress cbn [bind ret raise exit print when fst snd] in H
    | discriminate H
    | progress unfold bind in H
    | match type of H with
      | context [match ?x with _ => _ end] =>
          lazymatch x with
          | context [match _ with _ => _ end] => fail
          | _ => destruct x eqn:?
          end
      end ].

Lemma annotate_object_arrays C args res det f1 f2 o i sel o' out :
  annotate C args res det f1 f2 o (i, sel) = (Next o', out) ->
  exists info,
    nth_error (Descwl.table res) sel = Some info /\
    object_arrays o' =
      if draw_moments args
      then object_arrays (store_ellipse i (object_ellipse (Descwl.survey res) info) o)
      else object_arrays o.
Proof.
  intros H. unfold annotate, lookup_match, match_center in H.
  destruct (nth_error (Descwl.table res) sel) as [info|]; [|discriminate H].
  exists info. split; [reflexivity|].
  step_cases H; injection H as <- _;
    rewrite ?object_arrays_store_match, ?object_arrays_call; reflexivity.
Qed.

Lemma lookup_match_In args det info d out :
  lookup_match args det info = (Next (Some d), out) -> In d det.
Proof.
  unfold lookup_match. intros H. step_cases H.
  injection H as <- _. eapply nth_error_In; eassumption.
Qed.

Lemma store_match_lacking c d o :
  lacks_shape d ->
  num_match_ellipses (store_match_ellipse c d o) = num_match_ellipses o /\
  calls (store_match_ellipse c d o) = calls o.
Proof.
  unfold store_match_ellipse. intros [H | [H | H]];
    destruct (d "A_IMAGE"), (d "B_IMAGE"), (d "THETA_IMAGE");
    try discriminate H; split; reflexivity.
Qed.

Lemma calls_store_match c d o : calls (store_match_ellipse c d o) = calls o.
Proof.
  unfold store_match_ellipse.
  destruct (d "A_IMAGE"), (d "B_IMAGE"), (d "THETA_IMAGE"); reflexivity.
Qed.

Lemma calls_store_ellipse i e o : calls (store_ellipse i e o) = calls o.
Proof. destruct e as [[[c w] h] t]. reflexivity. Qed.

Lemma num_match_store_ellipse i e o :
  num_match_ellipses (store_ellipse i e o) = num_match_ellipses o.
Proof. destruct e as [[[c w] h] t]. reflexivity. Qed.

Lemma no_match_call d o :
  is_match_ellipses d = false -> no_match_ellipses (calls o) ->
  no_match_ellipses (calls (call d o)).
Proof.
  intros Hd Ho. unfold no_match_ellipses. cbn. apply Forall_app. split; [exact Ho|].
  constructor; [exact Hd | constructor].
Qed.

Lemma annotate_match_count C args res det f1 f2 o item o' out :
  Forall lacks_shape det ->
  annotate C args res det f1 f2 o item = (Next o', out) ->
  num_match_ellipses o' = num_match_ellipses o.
Proof.
  intros Hall H. destruct item as [i sel]. unfold annotate in H.
  step_cases H; injection H as <- _;
    rewrite ?num_match_store_ellipse; try reflexivity;
    match goal with
    | |- num_match_ellipses (store_match_ellipse _ ?d _) = _ =>
        rewrite (proj1 (store_match_lacking _ d _
                          ltac:(eapply Forall_forall;
                                [exact Hall | eapply lookup_match_In; eassumption])))
    end;
    rewrite ?num_match_store_ellipse; reflexivity.
Qed.

Lemma annotate_no_match_call C args res det f1 f2 o item o' out :
  annotate C args res det f1 f2 o item = (Next o', out) ->
  no_match_ellipses (calls o) -> no_match_ellipses (calls o').
Proof.
  intros H Ho. destruct item as [i sel]. unfold annotate in H.
  step_cases H; injection H as <- _;
    rewrite ?calls_store_match, ?calls_store_ellipse;
    unfold no_match_ellipses in *; cbn;
    rewrite ?Forall_app; repeat split; try exact Ho;
    repeat constructor.
Qed.

Lemma bind_next {A B : Type} (m : M A) (k : A -> M B) (b : B) (out : list string) :
  bind m k = (Next b, out) ->
  exists a out1 out2, m = (Next a, out1) /\ k a = (Next b, out2) /\ out = (out1 ++ out2)%list.
Proof.
  destruct m as [[a | c w | e] out1]; cbn; try discriminate.
  destruct (k a) as [r out2] eqn:Hk. intros H. injection H as -> <-.
  exists a, out1, out2. split; [reflexivity|]. split; [exact Hk | reflexivity].
Qed.

Lemma foldM_invariant {A S : Type} (f : S -> A -> M S) (P : S -> Prop) :
  (forall s x s' out, f s x = (Next s', out) -> P s -> P s') ->
  forall l s s' out, foldM f l s = (Next s', out) -> P s -> P s'.
Proof.
  intros Hf. induction l as [|x t IH]; intros s s' out H Hs; cbn in H.
  - injection H as <- _. exact Hs.
  - apply bind_next in H. destruct H as (s1 & o1 & o2 & H1 & H2 & _).
    eapply IH; [exact H2|]. eapply Hf; eassumption.
Qed.

Lemma ellipse_at_Some o k c w h t :
  ellipse_at o k = Some (c, w, h, t) ->
  nth_error (ellipse_centers o) k = Some (Some c) /\
  nth_error (ellipse_widths o) k = Some (Some w) /\
  nth_error (ellipse_heights o) k = Some (Some h) /\
  nth_error (ellipse_angles o) k = Some (Some t).
Proof.
  unfold ellipse_at.
  destruct (nth_error (ellipse_centers o) k) as [[?|]|]; try discriminate.
  destruct (nth_error (ellipse_widths o) k) as [[?|]|]; try discriminate.
  destruct (nth_error (ellipse_heights o) k) as [[?|]|]; try discriminate.
  destruct (nth_error (ellipse_angles o) k) as [[?|]|]; try discriminate.
  intros H. injection H as -> -> -> ->. repeat split.
Qed.

Section AnnotateLoop.

Variables (C : Collaborators) (args : Args) (res : Descwl.Results).
Variables (det : list Descwl.Detection) (f1 f2 : option string) (n : nat).
Hypothesis moments : draw_moments args = true.

Lemma annotate_loop_ellipses (l : list nat) :
  forall i0 o o' out,
    foldM (annotate C args res det f1 f2) (enumerate_from i0 l) o = (Next o', out) ->
    capacity n o -> (i0 + List.length l <= n)%nat ->
    capacity n o' /\
    (forall j, (j < i0)%nat -> ellipse_at o' j = ellipse_at o j) /\
    (forall k sel, nth_error l k = Some sel ->
       exists info,
         nth_error (Descwl.table res) sel = Some info /\
         ellipse_at o' (i0 + k) = Some (object_ellipse (Descwl.survey res) info)).
Proof.
  induction l as [|sel t IH]; intros i0 o o' out H Hcap Hlen; cbn in H.
  - injection H as <- _. split; [exact Hcap|]. split; [reflexivity|].
    intros [|k] sel' Hk; discriminate Hk.
  - apply bind_next in H. destruct H as (o1 & out1 & out2 & H1 & H2 & _).
    apply annotate_object_arrays in H1. destruct H1 as (info & Hinfo & Harr).
    rewrite moments in Harr. cbn in Hlen.
    set (e := object_ellipse (Descwl.survey res) info) in *.
    assert (Hcap1 : capacity n o1)
      by (eapply capacity_arrays; [exact Harr | apply capacity_store, Hcap]).
    destruct (IH (S i0) o1 o' out2 H2 Hcap1 ltac:(lia)) as (Hc & Hold & Hnew).
    split; [exact Hc|]. split.
    + intros j Hj. rewrite Hold by lia.
      rewrite (ellipse_at_arrays _ _ j Harr). apply ellipse_at_store_other. lia.
    + intros [|k] sel' Hk; cbn in Hk.
      * injection Hk as <-. exists info. split; [exact Hinfo|].
        rewrite Nat.add_0_r, Hold by lia.
        rewrite (ellipse_at_arrays _ _ i0 Harr).
        apply (ellipse_at_store_same n); [exact Hcap | lia].
      * destruct (Hnew k sel' Hk) as (info' & Hi & He).
        exists info'. split; [exact Hi|].
        replace (i0 + S k)%nat with (S i0 + k)%nat by lia. exact He.
Qed.

End AnnotateLoop.

Lemma capacity_new n : capacity n (new_overlay n).
Proof. unfold capacity, new_overlay, Np.empty; cbn. rewrite !repeat_length. tauto. Qed.

Lemma in_calls_call d d' o : In d (calls o) -> In d (calls (call d' o)).
Proof. intros H. cbn. apply in_or_app. now left. Qed.

Lemma in_calls_new d o : In d (calls (call d o)).
Proof. cbn. apply in_or_app. right. now left. Qed.

(** What [draw] hands to the renderer, in terms of the overlay [o'] left
    by the loop, which starts from the image alone. *)
Lemma draw_next C args p fig out :
  draw C args p = (Next fig, out) ->
  exists pixels out1 o' out2,
    zscale_pixels (results p) (selected_image p) = (Next pixels, out1) /\
    foldM (annotate C args (results p) (detected p)
                    (unescape C (info args)) (unescape C (match_info args)))
          (enumerate_from 0 (selected_indices p))
          (call (shown_image C args p pixels)
                (new_overlay (List.length (selected_indices p))))
      = (Next o', out2) /\
    out = (out1 ++ out2)%list /\
    drawn fig =
      calls (let o := draw_ellipses args o' in
             let o := match output_name args with
                      | Some (String _ _ as name) => call (Savefig name (dpi args)) o
                      | _ => o
                      end in
             if no_display args then o else call Show o).
Proof.
  unfold draw. intros H.
  apply bind_next in H. destruct H as (pixels & o1 & o2 & Hp & H & ->).
  apply bind_next in H. destruct H as (o' & o3 & o4 & Hl & H & ->).
  injection H as <- <-. exists pixels, o1, o', o3.
  split; [exact Hp|]. split; [exact Hl|]. split; [|reflexivity].
  now rewrite app_nil_r.
Qed.

(** C4, as the code has it.  When ellipses are requested and the drawing
    part goes through, one collection of object ellipses is drawn; for the
    k-th selected object its centre is the object's display coordinates,
    its width is a/scale, its height is b/scale and its angle is
    degrees(beta).  When no row of the detection catalog has all three shape
    fields, no collection of match ellipses is drawn. *)
Theorem ellipse_geometry (C : Collaborators) (args : Args) (p : Prepared)
        (fig : Figure) (out : list string) :
  draw_moments args = true ->
  draw C args p = (Next fig, out) ->
  (exists widths heights angles offsets,
      In (Ellipses widths heights angles offsets (ellipse_color args)) (drawn fig) /\
      forall k sel,
        nth_error (selected_indices p) k = Some sel ->
        exists info,
          let sv := Descwl.survey (results p) in
          nth_error (Descwl.table (results p)) sel = Some info /\
          nth_error offsets k =
            Some (Some ((1 # 2) * inject_Z (Descwl.image_width sv)
                          + Descwl.dx info / Descwl.pixel_scale sv,
                        (1 # 2) * inject_Z (Descwl.image_height sv)
                          + Descwl.dy info / Descwl.pixel_scale sv)) /\
          nth_error widths k = Some (Some (Descwl.a info / Descwl.pixel_scale sv)) /\
          nth_error heights k = Some (Some (Descwl.b info / Descwl.pixel_scale sv)) /\
          nth_error angles k = Some (Some (Np.degrees (Q2R (Descwl.beta info))))) /\
  (Forall lacks_shape (detected p) -> no_match_ellipses (drawn fig)).
Proof.
  intros Hm H. apply draw_next in H.
  destruct H as (pixels & out1 & o' & out' & _ & Hl & _ & ->).
  unfold draw_ellipses. rewrite Hm. split.
  - exists (ellipse_widths o'), (ellipse_heights o'), (ellipse_angles o'),
      (ellipse_centers o').
    split.
    + set (e := Ellipses _ _ _ _ _).
      assert (He : In e (calls (call e o'))) by apply in_calls_new.
      destruct (0 <? num_match_ellipses (call e o'))%nat, (output_name args) as [[|? ?]|],
        (no_display args); cbn zeta iota;
        repeat first [ exact He | apply in_calls_call ].
    + intros k sel Hk.
      destruct (annotate_loop_ellipses C args (results p) (detected p) _ _
                  (List.length (selected_indices p)) Hm (selected_indices p)
                  0%nat _ o' out' Hl) as (_ & _ & Hnew).
      * apply (capacity_arrays _ (new_overlay (List.length (selected_indices p))));
          [reflexivity | apply capacity_new].
      * cbn. lia.
      * destruct (Hnew k sel Hk) as (info & Hi & He). exists info. cbn zeta.
        split; [exact Hi|]. apply ellipse_at_Some in He. exact He.
  - intros Hall.
    assert (Hn : num_match_ellipses o' = 0%nat).
    { apply (foldM_invariant _ (fun o => num_match_ellipses o = 0%nat)
               (fun s x s' out0 Hs Hz =>
                  eq_trans (annotate_match_count C args _ _ _ _ s x s' out0 Hall Hs) Hz)
               _ _ _ _ Hl).
      reflexivity. }
    assert (Hc : no_match_ellipses (calls o')).
    { apply (foldM_invariant _ (fun o => no_match_ellipses (calls o))
               (fun s x s' out0 Hs => annotate_no_match_call C args _ _ _ _ s x s' out0 Hs)
               _ _ _ _ Hl).
      apply no_match_call; [reflexivity | constructor]. }
    cbn [num_match_ellipses call]. rewrite Hn. cbn [Nat.ltb Nat.leb].
    destruct (output_name args) as [[|? ?]|], (no_display args); cbn zeta iota;
      repeat (apply no_match_call; [reflexivity|]); exact Hc.
Qed.

Lemma scenario_draw_goes_through :
  exists fig,
    draw Scenario.collaborators
         (Scenario.with_match_catalog "detections.cat"
            (Scenario.options None None [] [] false false true None))
         Scenario.matched_prepared = (Next fig, []).
Proof. eexists. reflexivity. Qed.

Lemma position_only_lacks_shape : Forall lacks_shape [Scenario.position_only].
Proof. constructor; [left; reflexivity | constructor]. Qed.

Lemma ellipse_geometry_witness :
  exists fig : Figure,
    (exists widths heights angles offsets,
        In (Ellipses widths heights angles offsets "greenyellow") (drawn fig) /\
        forall k sel,
          nth_error [0; 2]%nat k = Some sel ->
          exists info,
            nth_error (Descwl.table (results Scenario.matched_prepared)) sel = Some info /\
            nth_error offsets k =
              Some (Some ((1 # 2) * inject_Z 100 + Descwl.dx info / (2 # 10),
                          (1 # 2) * inject_Z 100 + Descwl.dy info / (2 # 10))) /\
            nth_error widths k = Some (Some (Descwl.a info / (2 # 10))) /\
            nth_error heights k = Some (Some (Descwl.b info / (2 # 10))) /\
            nth_error angles k = Some (Some (Np.degrees (Q2R (Descwl.beta info))))) /\
    no_match_ellipses (drawn fig).
Proof.
  destruct scenario_draw_goes_through as (fig & H). exists fig.
  destruct (ellipse_geometry Scenario.collaborators
              (Scenario.with_match_catalog "detections.cat"
                 (Scenario.options None None [] [] false false true None))
              Scenario.matched_prepared fig [] eq_refl H) as [Hg Hm].
  split; [exact Hg | exact (Hm position_only_lacks_shape)].
Defined.

(** C4, as the claim has it, fails: for the first object of the scenario
    ([a] = 1 arcsec, 0.2 arcsecs per pixel) the width handed to the ellipse
    collection is a/scale = 5 pixels, not 2*a/scale = 10 pixels. *)
Lemma ellipse_width_is_not_doubled :
  exists fig out widths heights angles offsets w,
    draw Scenario.collaborators
         (Scenario.options None None [] [] false false true None)
         Scenario.prepared = (Next fig, out) /\
    nth_error (drawn fig) 3 = Some (Ellipses widths heights angles offsets "greenyellow") /\
    nth_error widths 0 = Some (Some w) /\
    w == 5 /\
    ~ w == 2 * 1 / (2 # 10).
Proof.
  do 7 eexists. split; [reflexivity|]. split; [reflexivity|]. split; [reflexivity|].
  split; [reflexivity|]. intros H. discriminate H.
Qed.

(** ** Clipping bounds and the z scaling *)

Lemma background_clip_lo_seeded (args : Args) (res : Descwl.Results) (seed : Z) :
  add_noise args = Some seed -> seed <> 0%Z ->
  background_clip_lo args res = (Q2R (clip_noise args) * sky_noise res)%R.
Proof.
  intros Hs Hz. unfold background_clip_lo, truthy_int. rewrite Hs.
  destruct (Z.eqb_spec seed 0); [contradiction | reflexivity].
Qed.

(** C5 fails for the seed 0: line 135 adds the noise ([is not None]), but
    the test of line 279 takes 0 for false, so the background keeps the low
    clip [clip_lo_noise_fraction * sqrt(mean_sky_level)]. *)
Theorem seed_zero_keeps_low_clip (C : Collaborators) (args : Args) (res : Descwl.Results) :
  add_noise args = Some 0%Z ->
  apply_noise C args res = results_add_noise C 0 res /\
  background_clip_lo args (apply_noise C args res) =
    (Q2R (clip_lo_noise_fraction args)
     * sqrt (Q2R (Descwl.mean_sky_level (Descwl.survey (apply_noise C args res)))))%R.
Proof.
  intros Hs. unfold apply_noise, background_clip_lo, truthy_int. rewrite Hs.
  split; reflexivity.
Qed.

Lemma scenario_sky_noise : sky_noise Scenario.results = 1%R.
Proof.
  unfold sky_noise; cbn. replace (Q2R 1) with 1%R by (unfold Q2R; cbn; lra).
  apply sqrt_1.
Qed.

Lemma seed_zero_keeps_low_clip_witness :
  let args := Scenario.options None None [] [] false false false (Some 0%Z) in
  let res := apply_noise Scenario.collaborators args Scenario.results in
  background_clip_lo args res = (1 / 10)%R /\
  (Q2R (clip_noise args) * sky_noise res)%R = (- 1)%R.
Proof.
  cbn zeta. split.
  - rewrite (proj2 (seed_zero_keeps_low_clip Scenario.collaborators
                      (Scenario.options None None [] [] false false false (Some 0%Z))
                      Scenario.results eq_refl)).
    change (sqrt _) with (sky_noise Scenario.results). rewrite scenario_sky_noise.
    unfold Q2R; cbn. lra.
  - change (apply_noise _ _ _) with Scenario.results. rewrite scenario_sky_noise.
    unfold Q2R; cbn. lra.
Defined.



(** In binary64 the scenario gives 0.5 and a square root between 0.7071
    and 0.7072 as well. *)
Example zscale_scenario_binary64 : Binary64.zscale_scenario = true.
Proof. reflexivity. Qed.



(** ** Alpha blending *)

(** In binary64 the scenario gives 0.6 and 0.1 as well. *)
Example blend_scenario_binary64 : Binary64.blend_scenario = true.
Proof. reflexivity. Qed.

(** C7: with a highlight colour (a name that is neither empty nor
    "none") each channel of a pixel is
    highlighted_z * colour + background_rgb * (1 - highlighted_z); without
    one the pixel keeps its background colour; red (1,0,0) at
    highlighted_z = 0.5 over (0.2,0.2,0.2) gives (0.6,0.1,0.1). *)
Theorem alpha_blending (C : Collaborators) (args : Args)
        (highlighted_z background_z : Z -> Z -> R) (x y : Z) :
  final_rgb C args highlighted_z background_z x y =
    (let '(br, bg, bb) := get_cmap C (colormap args) (background_z x y) in
     if (negb (String.eqb (highlight args) "")
         && negb (String.eqb (highlight args) "none"))%bool
     then
       let '(cr, cg, cb) := to_rgb C (highlight args) in
       let alpha := highlighted_z x y in
       (alpha * cr + br * (1 - alpha), alpha * cg + bg * (1 - alpha),
        alpha * cb + bb * (1 - alpha))%R
     else (br, bg, bb)) /\
  blend (1 / 2) (1, 0, 0)%R (2 / 10, 2 / 10, 2 / 10)%R = (6 / 10, 1 / 10, 1 / 10)%R.
Proof.
  split.
  - unfold final_rgb, highlight_configured, blend.
    destruct (negb (String.eqb (highlight args) "")
              && negb (String.eqb (highlight args) "none"))%bool;
      destruct (get_cmap C (colormap args) (background_z x y)) as [[br bg] bb];
      [destruct (to_rgb C (highlight args)) as [[cr cg] cb]|]; reflexivity.
  - unfold blend. f_equal; [f_equal|]; lra.
Qed.

(** ** Formatting a number and reading it back *)

Lemma digit_cases (P : N -> Prop) :
  P 0%N -> P 1%N -> P 2%N -> P 3%N -> P 4%N -> P 5%N -> P 6%N -> P 7%N -> P 8%N -> P 9%N ->
  forall d, P (N.min d 9).
Proof.
  intros H0 H1 H2 H3 H4 H5 H6 H7 H8 H9 d.
  assert (E : (N.min d 9 = 0 \/ N.min d 9 = 1 \/ N.min d 9 = 2 \/ N.min d 9 = 3 \/
               N.min d 9 = 4 \/ N.min d 9 = 5 \/ N.min d 9 = 6 \/ N.min d 9 = 7 \/
               N.min d 9 = 8 \/ N.min d 9 = 9)%N) by lia.
  repeat (destruct E as [-> | E]; [assumption|]). rewrite E. assumption.
Qed.

Lemma digit_of_digit_char (n : N) : Py.digit_of (Py.digit_char (n mod 10)) = Some (n mod 10)%N.
Proof.
  assert (H : (n mod 10 < 10)%N) by (apply N.mod_lt; discriminate).
  unfold Py.digit_char. rewrite <- (N.min_l (n mod 10) 9) at 2 by lia.
  generalize (n mod 10)%N.
  apply (digit_cases (fun e => Py.digit_of (ascii_of_N (48 + e)) = Some e)); reflexivity.
Qed.

Lemma digit_char_not_space (n : N) : Py.is_space (Py.digit_char n) = false.
Proof.
  unfold Py.digit_char. revert n.
  apply (digit_cases (fun e => Py.is_space (ascii_of_N (48 + e)) = false)); reflexivity.
Qed.


Lemma read_sign_digit (n : N) (t : string) :
  Py.read_sign (String (Py.digit_char n) t) = (false, String (Py.digit_char n) t).
Proof.
  unfold Py.digit_char. revert n.
  apply (digit_cases
           (fun e => Py.read_sign (String (ascii_of_N (48 + e)) t)
                     = (false, String (ascii_of_N (48 + e)) t))); reflexivity.
Qed.

Lemma read_digits_digit (n : N) (t : string) (acc : N) (cnt : nat) :
  Py.read_digits (String (Py.digit_char (n mod 10)) t) acc cnt =
  Py.read_digits t (10 * acc + n mod 10)%N (S cnt).
Proof. cbn [Py.read_digits]. rewrite digit_of_digit_char. reflexivity. Qed.


Lemma pow10_succ (k : nat) : (10 ^ N.of_nat (S k) = 10 * 10 ^ N.of_nat k)%N.
Proof. rewrite Nat2N.inj_succ, N.pow_succ_r'. reflexivity. Qed.

Lemma digits_fuel_S (f : nat) (n : N) (s : string) :
  Py.digits_fuel (S f) n s =
  if (n <? 10)%N then String (Py.digit_char (n mod 10)) s
  else Py.digits_fuel f (n / 10)%N (String (Py.digit_char (n mod 10)) s).
Proof. reflexivity. Qed.

Lemma read_digits_fuel (f : nat) :
  forall n s acc cnt,
    (n < 10 ^ N.of_nat (S f))%N ->
    exists k, (1 <= k)%nat /\
      Py.read_digits (Py.digits_fuel (S f) n s) acc cnt =
      Py.read_digits s (acc * 10 ^ N.of_nat k + n)%N (cnt + k).
Proof.
  induction f as [|f IH]; intros n s acc cnt Hn.
  - exists 1%nat. split; [lia|]. rewrite digits_fuel_S.
    change (10 ^ N.of_nat 1)%N with 10%N in *.
    assert (Hlt : (n <? 10)%N = true) by (apply N.ltb_lt; exact Hn).
    rewrite Hlt, read_digits_digit, N.mod_small by exact Hn.
    f_equal; lia.
  - rewrite digits_fuel_S. destruct (N.ltb_spec n 10) as [Hlt | Hge].
    + exists 1%nat. split; [lia|]. change (10 ^ N.of_nat 1)%N with 10%N.
      rewrite read_digits_digit, N.mod_small by exact Hlt. f_equal; lia.
    + assert (Hq : (n / 10 < 10 ^ N.of_nat (S f))%N).
      { apply N.Div0.div_lt_upper_bound. rewrite <- pow10_succ. exact Hn. }
      destruct (IH (n / 10)%N (String (Py.digit_char (n mod 10)) s) acc cnt Hq)
        as (k & Hk & E).
      exists (S k). split; [lia|].
      rewrite E, read_digits_digit, pow10_succ.
      f_equal; [|lia].
      pose proof (N.div_mod n 10 ltac:(discriminate)) as Hdm. lia.
Qed.

Lemma enough_fuel (n : N) : (n < 10 ^ N.of_nat (S (N.to_nat (N.log2 n))))%N.
Proof.
  rewrite Nat2N.inj_succ, N2Nat.id.
  apply N.lt_le_trans with (2 ^ N.succ (N.log2 n))%N.
  - destruct n as [|q]; [reflexivity|]. apply N.log2_spec. reflexivity.
  - apply N.pow_le_mono_l. lia.
Qed.

Lemma read_string_of_N (n : N) (s : string) (acc : N) (cnt : nat) :
  exists k, (1 <= k)%nat /\
    Py.read_digits (Py.digits_fuel (S (N.to_nat (N.log2 n))) n s) acc cnt =
    Py.read_digits s (acc * 10 ^ N.of_nat k + n)%N (cnt + k).
Proof. apply read_digits_fuel, enough_fuel. Qed.


Lemma digits_fuel_app (f : nat) :
  forall n s1 s2, Py.digits_fuel f n (s1 ++ s2) = (Py.digits_fuel f n s1 ++ s2)%string.
Proof.
  induction f as [|f IH]; intros n s1 s2; [reflexivity|].
  rewrite !digits_fuel_S. destruct (n <? 10)%N; [reflexivity|].
  apply (IH (n / 10)%N (String (Py.digit_char (n mod 10)) s1) s2).
Qed.


Lemma append_empty_r (s : string) : (s ++ "")%string = s.
Proof. induction s as [|c t IH]; cbn; [reflexivity | now rewrite IH]. Qed.

Lemma append_assoc (s1 s2 s3 : string) :
  ((s1 ++ s2) ++ s3)%string = (s1 ++ (s2 ++ s3))%string.
Proof. induction s1 as [|c t IH]; cbn; [reflexivity | now rewrite IH]. Qed.

Lemma rev_append_twice (s : string) :
  forall a b, Py.rev_append (Py.rev_append s a) b = Py.rev_append a (s ++ b)%string.
Proof.
  induction s as [|c t IH]; intros a b; cbn; [reflexivity|].
  rewrite IH. reflexivity.
Qed.

Lemma rev_involutive (s : string) : Py.rev (Py.rev s) = s.
Proof. unfold Py.rev. rewrite rev_append_twice. cbn. apply append_empty_r. Qed.

Lemma rev_append_last (s : string) :
  forall c acc, Py.last_char s = Some c -> exists t, Py.rev_append s acc = String c t.
Proof.
  induction s as [|a t IH]; intros c acc H; [discriminate H|].
  destruct t as [|b t'].
  - injection H as <-. exists acc. reflexivity.
  - change (Py.last_char (String a (String b t'))) with (Py.last_char (String b t')) in H.
    change (Py.rev_append (String a (String b t')) acc)
      with (Py.rev_append (String b t') (String a acc)).
    apply IH, H.
Qed.

Lemma strip_trimmed (s : string) : trimmed s -> Py.strip s = s.
Proof.
  intros (c & c' & Hf & Hc & Hl & Hc'). unfold Py.strip.
  destruct s as [|a t]; [discriminate Hf|]. injection Hf as ->.
  cbn [Py.lstrip]. rewrite Hc.
  destruct (rev_append_last _ c' "" Hl) as (u & Hu). unfold Py.rev at 2. rewrite Hu.
  cbn [Py.lstrip]. rewrite Hc'. rewrite <- Hu.
  exact (rev_involutive (String c t)).
Qed.

Lemma last_char_app (s : string) (c : ascii) :
  Py.last_char (s ++ String c "") = Some c.
Proof.
  induction s as [|a t IH]; [reflexivity|].
  cbn [append]. destruct (t ++ String c "")%string eqn:E.
  - destruct t; discriminate E.
  - rewrite <- E in *. cbn [Py.last_char]. rewrite E in *.
    cbn in IH |- *. exact IH.
Qed.


Lemma string_of_N_last (n : N) :
  exists p, Py.string_of_N n = (p ++ String (Py.digit_char (n mod 10)) "")%string.
Proof.
  unfold Py.string_of_N. rewrite digits_fuel_S. destruct (n <? 10)%N.
  - exists "". reflexivity.
  - eexists. apply (digits_fuel_app _ _ "" (String (Py.digit_char (n mod 10)) "")).
Qed.

Lemma digits_fuel_head (f : nat) :
  forall n s, exists d t, Py.digits_fuel (S f) n s = String (Py.digit_char d) t.
Proof.
  induction f as [|f IH]; intros n s; rewrite digits_fuel_S; destruct (n <? 10)%N;
    try (eexists _, _; reflexivity).
  apply IH.
Qed.


Lemma signed_trimmed (neg : bool) (s : string) (d c : ascii) (t : string) :
  s = String d t -> Py.is_space d = false ->
  Py.last_char s = Some c -> Py.is_space c = false ->
  trimmed ((if neg then "-" else "") ++ s).
Proof.
  intros -> Hd Hl Hc. destruct neg.
  - exists "-"%char, c. repeat split; try reflexivity; assumption.
  - exists d, c. repeat split; assumption.
Qed.

Lemma read_sign_signed (neg : bool) (n : N) (t : string) :
  Py.read_sign ((if neg then "-" else "") ++ String (Py.digit_char n) t) =
  (neg, String (Py.digit_char n) t).
Proof. destruct neg; [reflexivity | apply read_sign_digit]. Qed.

(** Reading back a formatted integer. *)
Lemma float_of_integer (neg : bool) (n : N) :
  exists q,
    Py.float ((if neg then "-" else "") ++ Py.string_of_N n) = Some q /\
    q == (if neg then - inject_Z (Z.of_N n) else inject_Z (Z.of_N n)).
Proof.
  destruct (string_of_N_last n) as (p & Hp).
  destruct (digits_fuel_head (N.to_nat (N.log2 n)) n "") as (d & t & Hh).
  fold (Py.string_of_N n) in Hh.
  destruct (read_string_of_N n "" 0 0) as (k & Hk & E).
  fold (Py.string_of_N n) in E.
  unfold Py.float. rewrite strip_trimmed.
  2:{ apply (signed_trimmed neg _ _ (Py.digit_char (n mod 10)) _ Hh).
      - apply digit_char_not_space.
      - rewrite Hp. apply last_char_app.
      - apply digit_char_not_space. }
  rewrite Hh, read_sign_signed, <- Hh, E. cbn [Py.read_digits].
  destruct k as [|k]; [lia|]. cbn [Nat.add Py.read_exponent Z.of_nat Z.sub Z.opp Z.add].
  eexists. split; [reflexivity|].
  replace (0 * 10 ^ N.of_nat (S k) + n)%N with n by lia.
  change ((10 # 1) ^ 0) with 1. destruct neg; ring.
Qed.


Lemma float_format_d (z : Z) :
  exists q, Py.float (Py.format_d z) = Some q /\ q == inject_Z z.
Proof.
  unfold Py.format_d.
  destruct (float_of_integer (z <? 0)%Z (Z.abs_N z)) as (q & Hq & Hv).
  exists q. split; [exact Hq|]. rewrite Hv, N2Z.inj_abs_N.
  destruct (Z.ltb_spec z 0).
  - rewrite Z.abs_neq by lia. rewrite <- inject_Z_opp, Z.opp_involutive. reflexivity.
  - rewrite Z.abs_eq by lia. reflexivity.
Qed.






(** ** Selection by identifier *)

Lemma Qeq_bool_inject_Z (a b : Z) (q : Q) :
  q == inject_Z b -> Qeq_bool (inject_Z a) q = (a =? b)%Z.
Proof.
  intros Hq. destruct (Z.eqb_spec a b) as [-> | Hne].
  - apply Qeq_bool_iff. symmetry. exact Hq.
  - apply not_true_is_false. intros H. apply Qeq_bool_iff in H.
    rewrite Hq in H. apply Hne. rewrite inject_Z_injective in H. exact H.
Qed.

Lemma select_group (table : list Descwl.Row) (identifier : Z) :
  Descwl.select table ["grp_id==" ++ Py.format_d identifier]%string Descwl.And =
  Some (map (fun r => (Descwl.grp_id r =? identifier)%Z) table).
Proof.
  destruct (float_format_d identifier) as (q & Hq & Hv).
  unfold Descwl.select, Descwl.parse_cuts, Descwl.parse_cut.
  cbn -[Py.format_d Py.float]. rewrite Hq. f_equal. apply map_ext. intros r.
  cbn. rewrite (Qeq_bool_inject_Z _ identifier q Hv). apply andb_true_r.
Qed.

Lemma select_galaxy (table : list Descwl.Row) (identifier : Z) :
  Descwl.select table ["db_id==" ++ Py.format_d identifier]%string Descwl.And =
  Some (map (fun r => (Descwl.db_id r =? identifier)%Z) table).
Proof.
  destruct (float_format_d identifier) as (q & Hq & Hv).
  unfold Descwl.select, Descwl.parse_cuts, Descwl.parse_cut.
  cbn -[Py.format_d Py.float]. rewrite Hq. f_equal. apply map_ext. intros r.
  cbn. rewrite (Qeq_bool_inject_Z _ identifier q Hv). apply andb_true_r.
Qed.

Lemma logical_or_length (m1 m2 : list bool) :
  List.length m1 = List.length m2 ->
  List.length (Np.logical_or m1 m2) = List.length m1.
Proof.
  revert m2. induction m1 as [|b t IH]; intros [|b' t'] H; cbn in *; try congruence.
  f_equal. apply IH. congruence.
Qed.

Lemma logical_or_all_false (m1 m2 : list bool) :
  List.length m1 = List.length m2 -> Np.any m2 = false -> Np.logical_or m1 m2 = m1.
Proof.
  revert m2. induction m1 as [|b t IH]; intros [|b' t'] H Hf; cbn in *; try congruence.
  apply orb_false_iff in Hf. destruct Hf as [-> Hf].
  rewrite orb_false_r. f_equal. apply IH; [congruence | exact Hf].
Qed.

Lemma any_map_false {A : Type} (f : A -> bool) (l : list A) :
  (forall x, In x l -> f x = false) -> Np.any (map f l) = false.
Proof.
  intros H. induction l as [|x t IH]; [reflexivity|]. cbn.
  rewrite (H x (or_introl eq_refl)). apply IH. intros y Hy. apply H. now right.
Qed.

Lemma foldM_app {A S : Type} (f : S -> A -> M S) (l1 l2 : list A) (s : S) :
  foldM f (l1 ++ l2) s = (s1 <- foldM f l1 s ;; foldM f l2 s1).
Proof.
  revert s. induction l1 as [|x t IH]; intros s; cbn [foldM app].
  - unfold bind, ret. destruct (foldM f l2 s) as [r out]. reflexivity.
  - unfold bind at 1 3. destruct (f s x) as [[s1 | c w | e] out]; try reflexivity.
    rewrite IH. unfold bind.
    destruct (foldM f t s1) as [[s2 | c w | e] out1]; try reflexivity.
    + destruct (foldM f l2 s2) as [r out2]. now rewrite app_assoc.
Qed.

Section Identifiers.

(** One round of either loop over identifiers: the rows whose [key] is
    the identifier are OR-ed into the selection, with a warning when there
    are none. *)
Variable table : list Descwl.Row.
Variable key : Descwl.Row -> Z.
Variable step : list bool -> Z -> M (list bool).
Variable warning : Z -> string.

Hypothesis step_spec :
  forall selection identifier,
    step selection identifier =
      (Next (Np.logical_or selection (matches table key identifier)),
       if Np.any (matches table key identifier) then [] else [warning identifier]).

Lemma step_unmatched (selection : list bool) (identifier : Z) :
  List.length selection = List.length table -> unmatched table key identifier ->
  step selection identifier = (Next selection, [warning identifier]).
Proof.
  intros Hl Hu. rewrite step_spec.
  assert (Hf : Np.any (matches table key identifier) = false).
  { apply any_map_false. intros r Hr. apply Z.eqb_neq, Hu, Hr. }
  rewrite Hf, logical_or_all_false; [reflexivity | | exact Hf].
  unfold matches. rewrite length_map. exact Hl.
Qed.

Lemma loop_goes_on (l : list Z) :
  forall selection,
    List.length selection = List.length table ->
    exists m out, foldM step l selection = (Next m, out) /\
                  List.length m = List.length table.
Proof.
  induction l as [|x t IH]; intros selection Hl; cbn [foldM].
  - exists selection, []. split; [reflexivity | exact Hl].
  - rewrite step_spec. cbn [bind].
    destruct (IH (Np.logical_or selection (matches table key x))) as (m & out & Hm & Hlen).
    + rewrite logical_or_length; [exact Hl|]. unfold matches. now rewrite length_map.
    + rewrite Hm. eexists _, _. split; [reflexivity | exact Hlen].
Qed.

Lemma loop_unmatched (l1 l2 : list Z) (identifier : Z) (selection : list bool) :
  List.length selection = List.length table -> unmatched table key identifier ->
  exists m out1 out2,
    List.length m = List.length table /\
    foldM step (l1 ++ l2) selection = (Next m, (out1 ++ out2)%list) /\
    foldM step (l1 ++ identifier :: l2) selection =
      (Next m, (out1 ++ [warning identifier] ++ out2)%list).
Proof.
  intros Hl Hu.
  destruct (loop_goes_on l1 selection Hl) as (m1 & out1 & H1 & Hl1).
  destruct (loop_goes_on l2 m1 Hl1) as (m & out2 & H2 & Hl2).
  exists m, out1, out2. split; [exact Hl2|].
  rewrite !foldM_app, H1. cbn [bind foldM].
  rewrite (step_unmatched m1 identifier Hl1 Hu). cbn [bind]. rewrite H2.
  split; reflexivity.
Qed.

End Identifiers.

Lemma add_group_spec (res : Descwl.Results) (selection : list bool) (identifier : Z) :
  add_group res selection identifier =
    (Next (Np.logical_or selection (matches (Descwl.table res) Descwl.grp_id identifier)),
     if Np.any (matches (Descwl.table res) Descwl.grp_id identifier)
     then [] else [group_warning identifier]).
Proof.
  unfold add_group, results_select. rewrite select_group.
  unfold matches. cbn [bind ret]. destruct (Np.any _); reflexivity.
Qed.

Lemma add_galaxy_spec (res : Descwl.Results) (selection : list bool) (identifier : Z) :
  add_galaxy res selection identifier =
    (Next (Np.logical_or selection (matches (Descwl.table res) Descwl.db_id identifier)),
     if Np.any (matches (Descwl.table res) Descwl.db_id identifier)
     then [] else [galaxy_warning identifier]).
Proof.
  unfold add_galaxy, results_select. rewrite select_galaxy.
  unfold matches. cbn [bind ret]. destruct (Np.any _); reflexivity.
Qed.

Lemma initial_selection_length (res : Descwl.Results) (cuts : list string)
      (m : list bool) (out : list string) :
  initial_selection res cuts = (Next m, out) ->
  List.length m = List.length (Descwl.table res) /\ out = [].
Proof.
  unfold initial_selection, results_select, Descwl.select. intros H.
  destruct cuts as [|c t];
    destruct (Descwl.parse_cuts _); try discriminate H;
    injection H as <- <-; rewrite length_map; split; reflexivity.
Qed.

(** C9: once the cuts have given the first selection, a group identifier
    (or a galaxy identifier) that no table row carries makes the script
    print its warning and go on, and the final mask is the one obtained
    without that identifier. *)
Theorem unmatched_identifier (res : Descwl.Results) (cuts : list string)
        (m0 : list bool) (out0 : list string) :
  initial_selection res cuts = (Next m0, out0) ->
  (forall g1 identifier g2 galaxies,
      (forall r, In r (Descwl.table res) -> Descwl.grp_id r <> identifier) ->
      exists m out1 out2,
        select_objects res cuts (g1 ++ g2) galaxies = (Next m, (out1 ++ out2)%list) /\
        select_objects res cuts (g1 ++ identifier :: g2) galaxies =
          (Next m,
           (out1 ++ [("WARNING: no group found with ID "
                        ++ Py.format_d identifier ++ ".")%string] ++ out2)%list)) /\
  (forall groups g1 identifier g2,
      (forall r, In r (Descwl.table res) -> Descwl.db_id r <> identifier) ->
      exists m out1 out2,
        select_objects res cuts groups (g1 ++ g2) = (Next m, (out1 ++ out2)%list) /\
        select_objects res cuts groups (g1 ++ identifier :: g2) =
          (Next m,
           (out1 ++ [("WARNING: no galaxy found with ID "
                        ++ Py.format_d identifier ++ ".")%string] ++ out2)%list)).
Proof.
  intros H0. destruct (initial_selection_length _ _ _ _ H0) as [Hl0 ->].
  unfold select_objects. rewrite H0. cbn [bind]. split.
  - intros g1 identifier g2 galaxies Hu.
    destruct (loop_unmatched (Descwl.table res) Descwl.grp_id (add_group res) group_warning
                (add_group_spec res) g1 g2 identifier m0 Hl0 Hu)
      as (m1 & out1 & out2 & Hl1 & Ha & Hb).
    destruct (loop_goes_on (Descwl.table res) Descwl.db_id (add_galaxy res) galaxy_warning
                (add_galaxy_spec res) galaxies m1 Hl1) as (m & out3 & Hg & _).
    exists m, out1, (out2 ++ out3)%list. rewrite Ha, Hb. cbn [bind]. rewrite Hg.
    cbn [app]. rewrite <- !app_assoc. split; reflexivity.
  - intros groups g1 identifier g2 Hu.
    destruct (loop_goes_on (Descwl.table res) Descwl.grp_id (add_group res) group_warning
                (add_group_spec res) groups m0 Hl0) as (m1 & out1 & Hg & Hl1).
    destruct (loop_unmatched (Descwl.table res) Descwl.db_id (add_galaxy res) galaxy_warning
                (add_galaxy_spec res) g1 g2 identifier m1 Hl1 Hu)
      as (m & out2 & out3 & _ & Ha & Hb).
    exists m, (out1 ++ out2)%list, out3. rewrite Hg. cbn [bind]. rewrite Ha, Hb.
    cbn [app]. rewrite <- !app_assoc. split; reflexivity.
Qed.

Lemma unmatched_identifier_witness :
  (exists m out1 out2,
      select_objects Scenario.results [] [10; 20]%Z [3%Z] = (Next m, (out1 ++ out2)%list) /\
      select_objects Scenario.results [] [10; 11; 20]%Z [3%Z] =
        (Next m, (out1 ++ ["WARNING: no group found with ID 11."] ++ out2)%list)) /\
  (exists m out1 out2,
      select_objects Scenario.results [] [10%Z] [3%Z] = (Next m, (out1 ++ out2)%list) /\
      select_objects Scenario.results [] [10%Z] [7; 3]%Z =
        (Next m, (out1 ++ ["WARNING: no galaxy found with ID 7."] ++ out2)%list)).
Proof.
  destruct (unmatched_identifier Scenario.results [] (repeat false 3) [] eq_refl)
    as [Hgroup Hgalaxy].
  split.
  - apply (Hgroup [10%Z] 11%Z [20%Z] [3%Z]).
    intros r [<- | [<- | [<- | []]]]; discriminate.
  - apply (Hgalaxy [10%Z] [] 7%Z [3%Z]).
    intros r [<- | [<- | [<- | []]]]; discriminate.
Defined.

(** ** The upper clipping bound *)

Lemma annotate_quiet C args res det f1 f2 o item o' out :
  annotate C args res det f1 f2 o item = (Next o', out) ->
  out = [] /\ exists rest, calls o' = (calls o ++ rest)%list.
Proof.
  intros H. destruct item as [i sel]. unfold annotate, lookup_match, match_center in H.
  step_cases H; injection H as <- <-; (split; [reflexivity|]);
    rewrite ?calls_store_match, ?calls_store_ellipse; cbn [calls call];
    rewrite <- ?app_assoc; eexists; try reflexivity.
  all: symmetry; apply app_nil_r.
Qed.

Lemma annotate_loop_quiet C args res det f1 f2 (l : list (nat * nat)) :
  forall o o' out,
    foldM (annotate C args res det f1 f2) l o = (Next o', out) ->
    out = [] /\ exists rest, calls o' = (calls o ++ rest)%list.
Proof.
  induction l as [|x t IH]; intros o o' out H; cbn [foldM] in H.
  - injection H as <- <-. split; [reflexivity|]. exists []. symmetry. apply app_nil_r.
  - apply bind_next in H. destruct H as (o1 & out1 & out2 & H1 & H2 & ->).
    apply annotate_quiet in H1. destruct H1 as [-> [r1 E1]].
    apply IH in H2. destruct H2 as [-> [r2 E2]].
    split; [reflexivity|]. exists (r1 ++ r2)%list. rewrite E2, E1. symmetry. apply app_assoc.
Qed.

Lemma calls_draw_ellipses args o :
  exists rest, calls (draw_ellipses args o) = (calls o ++ rest)%list.
Proof.
  unfold draw_ellipses. destruct (draw_moments args).
  - destruct (0 <? _)%nat; cbn [calls call]; rewrite <- ?app_assoc; eexists; reflexivity.
  - exists []. symmetry. apply app_nil_r.
Qed.

Lemma zscale_pixels_spec (res : Descwl.Results) (selected : option Galsim.Image) :
  zscale_pixels res selected = (Next (percentile_source res selected), fallback_warning selected).
Proof.
  unfold zscale_pixels, percentile_source, fallback_warning.
  destruct selected as [im|]; [|reflexivity].
  destruct (Z.ltb_spec (Galsim.area (Galsim.bounds im)) 16),
           (Z.leb_spec 16 (Galsim.area (Galsim.bounds im))); try lia; reflexivity.
Qed.

(** C8, as the code has it.  [vmax] is the configured percentile (90 by
    default) of the non-zero pixels of the selected sub-image when it has at
    least 16 pixels, and of the survey image otherwise.  The warning is
    printed when a selected sub-image exists and has fewer than 16 pixels;
    with nothing selected the survey image is used without a warning. *)
Theorem clip_hi_source (C : Collaborators) (args : Args) (p : Prepared) :
  zscale_pixels (results p) (selected_image p) =
    (Next (percentile_source (results p) (selected_image p)),
     fallback_warning (selected_image p)) /\
  clip_hi_percentile default_args == 90 /\
  forall fig out,
    draw C args p = (Next fig, out) ->
    let vmax := percentile C (filter Np.nonzero
                                (percentile_source (results p) (selected_image p)))
                           (clip_hi_percentile args) in
    out = fallback_warning (selected_image p) /\
    exists extent rest,
      drawn fig =
        Imshow (final_rgb C args
                  (z_layer (clip_lo args (results p)) (Q2R vmax) (highlighted args p))
                  (z_layer (background_clip_lo args (results p)) (Q2R vmax)
                           (background args p)))
               extent :: rest.
Proof.
  split; [apply zscale_pixels_spec|]. split; [reflexivity|].
  intros fig out H. apply draw_next in H.
  destruct H as (pixels & out1 & o' & out2 & Hp & Hl & -> & ->).
  rewrite zscale_pixels_spec in Hp. injection Hp as <- <-.
  apply annotate_loop_quiet in Hl. destruct Hl as [-> [rest Hc]].
  destruct (calls_draw_ellipses args o') as (r1 & E1).
  assert (E : exists r, calls
            (let o := draw_ellipses args o' in
             let o := match output_name args with
                      | Some (String _ _ as name) => call (Savefig name (dpi args)) o
                      | _ => o
                      end in
             if no_display args then o else call Show o) =
          (calls (draw_ellipses args o') ++ r)%list).
  { cbn zeta. destruct (output_name args) as [[|? ?]|], (no_display args);
      cbn [calls call]; rewrite <- ?app_assoc; eexists; try reflexivity;
      symmetry; apply app_nil_r. }
  destruct E as (r2 & ->). rewrite E1, Hc. cbn [calls call new_overlay app].
  cbn zeta. split; [apply app_nil_r|]. eexists.
  eexists. unfold shown_image, clip_hi. cbn zeta. reflexivity.
Qed.

Lemma small_draw_goes_through :
  exists fig,
    draw Scenario.collaborators (Scenario.options None None [] [] false false false None)
         Scenario.small_prepared
    = (Next fig, ["WARNING: using full image for z-scaling since only 9 pixel(s) selected."]).
Proof. eexists. reflexivity. Qed.

Lemma clip_hi_source_witness :
  exists fig extent rest,
    let args := Scenario.options None None [] [] false false false None in
    let p := Scenario.small_prepared in
    let vmax := percentile Scenario.collaborators
                  (filter Np.nonzero (Galsim.array (Descwl.image Scenario.survey))) 90 in
    drawn fig =
      Imshow (final_rgb Scenario.collaborators args
                (z_layer (clip_lo args (results p)) (Q2R vmax) (highlighted args p))
                (z_layer (background_clip_lo args (results p)) (Q2R vmax)
                         (background args p)))
             extent :: rest.
Proof.
  destruct small_draw_goes_through as (fig & H). exists fig.
  exact (proj2 (proj2 (proj2 (clip_hi_source Scenario.collaborators
                                (Scenario.options None None [] [] false false false None)
                                Scenario.small_prepared)) fig _ H)).
Defined.

(** C8, as the claim has it, fails: with nothing selected there is no
    sub-image, [vmax] comes from the survey image, and no warning is
    printed. *)
Lemma no_selection_falls_back_silently :
  get_subimage Scenario.collaborators Scenario.results [] = None /\
  zscale_pixels Scenario.results None =
    (Next (Galsim.array (Descwl.image Scenario.survey)), []) /\
  exists fig,
    main Scenario.collaborators
         (Scenario.options (Some "[-1,1,-1,1]") None [] [] false false false None)
    = (Next fig, []).
Proof.
  split; [reflexivity|]. split; [reflexivity|]. eexists. reflexivity.
Qed.

(** ** The select region *)















(** * Further properties of the script *)

(** ** Region strings *)








(** ** The view and the figure *)




(** ** How the script can end *)

Section Ends.

Variable P : Z -> site -> Prop.
Variable Q : Py.exc -> Prop.


Lemma ends_ret {A : Type} (a : A) : ends P Q (ret a).
Proof. exact I. Qed.

Lemma ends_print (line : string) : ends P Q (print line).
Proof. exact I. Qed.






End Ends.



(** ** What the first part hands over *)

Lemma when_exit_next (c : bool) (line : string) (code : Z) (w : site) (out : list string) :
  when c (print line ;;; exit code w) = (Next tt, out) -> c = false /\ out = [].
Proof.
  destruct c; cbn; intros H; [discriminate H|]. injection H as <-. split; reflexivity.
Qed.

Lemma prepare_next (C : Collaborators) (args : Args) (p : Prepared) (out : list string) :
  prepare C args = (Next p, out) ->
  (no_display args && negb (truthy_str (output_name args)))%bool = false /\
  (hide_background args && hide_selected args)%bool = false /\
  exists res0 cuts selection out1 out2 out3,
    from_args C args = inr res0 /\
    (detected p, results p) = matched C args (apply_noise C args res0) /\
    extend_select args = (Next cuts, out1) /\
    perform_selection args (results p) cuts = (Next selection, out2) /\
    (Np.any selection && negb (Descwl.stamps (results p)))%bool = false /\
    selected_indices p = Np.where_true selection /\
    selected_image p = get_subimage C (results p) (selected_indices p) /\
    resolve_view args (results p) (selected_image p) = (Next (view p), out3) /\
    check_view_size args (view p) = (Next tt, []) /\
    out = (out1 ++ out2 ++ out3)%list.
Proof.
  unfold prepare. intros H.
  apply bind_next in H. destruct H as ([] & o1 & o1' & H1 & H & ->).
  apply when_exit_next in H1. destruct H1 as [G1 ->].
  apply bind_next in H. destruct H as ([] & o2 & o2' & H2 & H & ->).
  apply when_exit_next in H2. destruct H2 as [G2 ->].
  apply bind_next in H. destruct H as (res0 & o3 & o3' & H3 & H & ->).
  destruct (from_args C args) as [msg | r0] eqn:Hload; [discriminate H3|].
  injection H3 as -> <-.
  fold (matched C args (apply_noise C args res0)) in H.
  destruct (matched C args (apply_noise C args res0)) as [det res] eqn:Hm.
  apply bind_next in H. destruct H as (cuts & o4 & o4' & H4 & H & ->).
  apply bind_next in H. destruct H as (selection & o5 & o5' & H5 & H & ->).
  apply bind_next in H. destruct H as ([] & o6 & o6' & H6 & H & ->).
  apply when_exit_next in H6. destruct H6 as [G6 ->].
  apply bind_next in H. destruct H as (v & o7 & o7' & H7 & H & ->).
  apply bind_next in H. destruct H as ([] & o8 & o8' & H8 & H & ->).
  injection H as <- <-.
  assert (E8 : o8 = []).
  { unfold check_view_size in H8. destruct (_ || _)%bool; [discriminate H8|].
    injection H8 as <-. reflexivity. }
  subst o8.
  split; [exact G1|]. split; [exact G2|].
  exists res0, cuts, selection, o4, o5, o7. cbn [results detected selected_indices
    selected_image view].
  repeat split; try assumption; try (symmetry; assumption);
    try (cbn [app]; rewrite ?app_nil_r); reflexivity.
Qed.






(** ** The selection *)

Lemma indices_from_In (m : list bool) :
  forall k i, In i (Np.indices_from k m) <->
              (k <= i)%nat /\ nth_error m (i - k) = Some true.
Proof.
  induction m as [|b t IH]; intros k i; cbn [Np.indices_from].
  - split; [intros [] | intros [_ H]]. destruct (i - k)%nat; discriminate H.
  - assert (Hrest : In i (Np.indices_from (S k) t) <->
                    (k < i)%nat /\ nth_error (b :: t) (i - k) = Some true).
    { rewrite IH. split.
      - intros [Hk H]. split; [lia|].
        replace (i - k)%nat with (S (i - S k)) by lia. exact H.
      - intros [Hk H]. split; [lia|].
        replace (i - k)%nat with (S (i - S k)) in H by lia. exact H. }
    destruct b.
    + cbn [In]. rewrite Hrest. split.
      * intros [<- | [Hk H]]; [|split; [lia | exact H]].
        split; [lia|]. rewrite Nat.sub_diag. reflexivity.
      * intros [Hk H]. destruct (Nat.eq_dec k i) as [-> | Hne]; [now left|].
        right. split; [lia | exact H].
    + rewrite Hrest. split.
      * intros [Hk H]. split; [lia | exact H].
      * intros [Hk H]. split; [|exact H].
        destruct (Nat.eq_dec k i) as [-> | Hne]; [|lia].
        rewrite Nat.sub_diag in H. discriminate H.
Qed.

Lemma indices_from_sorted (m : list bool) :
  forall k, StronglySorted lt (Np.indices_from k m).
Proof.
  induction m as [|b t IH]; intros k; cbn [Np.indices_from]; [constructor|].
  destruct b; [|apply IH].
  constructor; [apply IH|]. apply Forall_forall. intros i Hi.
  apply indices_from_In in Hi. lia.
Qed.

Lemma where_true_In (mask : list bool) (i : nat) :
  In i (Np.where_true mask) <-> nth_error mask i = Some true.
Proof.
  unfold Np.where_true. rewrite indices_from_In, Nat.sub_0_r.
  split; [intros [_ H]; exact H | intros H; split; [lia | exact H]].
Qed.

(** X6: the selected indices are the positions where the mask is true,
    each once and in increasing (table) order. *)
Theorem where_true_spec (mask : list bool) :
  StronglySorted lt (Np.where_true mask) /\
  forall i, In i (Np.where_true mask) <-> nth_error mask i = Some true.
Proof.
  split; [apply indices_from_sorted | intros i; apply where_true_In].
Qed.

Lemma foldM_deterministic_length (table : list Descwl.Row) (key : Descwl.Row -> Z)
      (step : list bool -> Z -> M (list bool)) (warning : Z -> string)
      (l : list Z) (selection m : list bool) (out : list string) :
  (forall s i, step s i =
     (Next (Np.logical_or s (matches table key i)),
      if Np.any (matches table key i) then [] else [warning i])) ->
  List.length selection = List.length table ->
  foldM step l selection = (Next m, out) ->
  List.length m = List.length table.
Proof.
  intros Hspec Hl H.
  destruct (loop_goes_on table key step warning Hspec l selection Hl) as (m' & o' & E & Hm).
  rewrite E in H. injection H as <- _. exact Hm.
Qed.

Lemma select_objects_length (res : Descwl.Results) (cuts : list string)
      (groups galaxies : list Z) (m : list bool) (out : list string) :
  select_objects res cuts groups galaxies = (Next m, out) ->
  List.length m = List.length (Descwl.table res).
Proof.
  unfold select_objects. intros H.
  apply bind_next in H. destruct H as (m0 & o0 & o0' & H0 & H & _).
  apply bind_next in H. destruct H as (m1 & o1 & o1' & H1 & H & _).
  apply initial_selection_length in H0. destruct H0 as [Hl0 _].
  apply (foldM_deterministic_length _ _ _ _ _ _ _ _ (add_group_spec res) Hl0) in H1.
  apply (foldM_deterministic_length _ _ _ _ _ _ _ _ (add_galaxy_spec res) H1) in H.
  exact H.
Qed.

Lemma any_where_true (m : list bool) : Np.any m = false <-> Np.where_true m = [].
Proof.
  unfold Np.where_true. generalize 0%nat.
  induction m as [|b t IH]; intros k; cbn; [tauto|].
  destruct b; cbn; [split; discriminate | apply IH].
Qed.

Lemma prepared_rows (C : Collaborators) (args : Args) (p : Prepared) (out : list string) :
  prepare C args = (Next p, out) ->
  exists mask,
    List.length mask = Descwl.num_objects (results p) /\
    selected_indices p = Np.where_true mask /\
    (forall i, In i (selected_indices p) ->
               exists row, nth_error (Descwl.table (results p)) i = Some row) /\
    (Np.any mask && negb (Descwl.stamps (results p)))%bool = false.
Proof.
  intros H. apply prepare_next in H.
  destruct H as (_ & _ & r0 & cuts & sel & a & b & c & _ & _ & _ & Hs & Hst & Hi & _).
  apply select_objects_length in Hs.
  exists sel. split; [exact Hs|]. split; [exact Hi|]. split; [|exact Hst].
  intros i Hin. rewrite Hi in Hin. apply where_true_In in Hin.
  destruct (nth_error (Descwl.table (results p)) i) as [row|] eqn:E; [now exists row|].
  apply nth_error_None in E. rewrite <- Hs in E.
  apply nth_error_None in E. congruence.
Qed.

(** X7: when the first part of [main] hands over to the drawing part, the
    mask has one entry per table row, so every selected index is the
    position of a table row; and objects are selected only if the results
    hold stamps. *)
Theorem prepared_selection (C : Collaborators) (args : Args) (p : Prepared)
        (out : list string) :
  prepare C args = (Next p, out) ->
  (exists mask, List.length mask = Descwl.num_objects (results p) /\
                selected_indices p = Np.where_true mask) /\
  (forall i, In i (selected_indices p) ->
             exists row, nth_error (Descwl.table (results p)) i = Some row) /\
  (selected_indices p <> [] -> Descwl.stamps (results p) = true).
Proof.
  intros H. apply prepared_rows in H. destruct H as (sel & Hs & Hi & Hrows & Hst).
  split; [exists sel; split; [exact Hs | exact Hi]|]. split; [exact Hrows|].
  intros Hne. rewrite Hi in Hne.
  destruct (Np.any sel) eqn:Ha.
  - cbn in Hst. apply negb_false_iff, Hst.
  - apply any_where_true in Ha. contradiction.
Qed.

(** ** When no exception leaves the script *)












(** ** Identifiers and region cuts *)

Lemma nth_error_logical_or (m1 m2 : list bool) :
  forall i,
    nth_error (Np.logical_or m1 m2) i =
    match nth_error m1 i, nth_error m2 i with
    | Some a, Some b => Some (a || b)%bool
    | _, _ => None
    end.
Proof.
  revert m2. induction m1 as [|a t IH]; intros [|b t'] [|i]; cbn; try reflexivity.
  - destruct (nth_error t i); reflexivity.
  - apply IH.
Qed.

Lemma any_matches (table : list Descwl.Row) (key : Descwl.Row -> Z) (identifier : Z) :
  Np.any (matches table key identifier) = existsb (fun r => (key r =? identifier)%Z) table.
Proof. unfold matches, Np.any. induction table as [|r t IH]; cbn; [reflexivity | now rewrite IH]. Qed.

(** X9: for every identifier, known or not, one round of the group loop
    goes on; afterwards a row is selected exactly when it was selected
    before or its [grp_id] is the identifier, and the warning is printed
    exactly when no row has that [grp_id].  The galaxy loop does the same
    with [db_id]. *)
Theorem identifier_adds_its_rows (res : Descwl.Results) (selection : list bool)
        (identifier : Z) :
  List.length selection = List.length (Descwl.table res) ->
  (exists mask,
      add_group res selection identifier =
        (Next mask,
         if existsb (fun r => (Descwl.grp_id r =? identifier)%Z) (Descwl.table res)
         then [] else [group_warning identifier]) /\
      forall i row before,
        nth_error (Descwl.table res) i = Some row ->
        nth_error selection i = Some before ->
        nth_error mask i = Some (before || (Descwl.grp_id row =? identifier)%Z)%bool) /\
  (exists mask,
      add_galaxy res selection identifier =
        (Next mask,
         if existsb (fun r => (Descwl.db_id r =? identifier)%Z) (Descwl.table res)
         then [] else [galaxy_warning identifier]) /\
      forall i row before,
        nth_error (Descwl.table res) i = Some row ->
        nth_error selection i = Some before ->
        nth_error mask i = Some (before || (Descwl.db_id row =? identifier)%Z)%bool).
Proof.
  intros Hl. split.
  - eexists. rewrite add_group_spec, any_matches. split; [reflexivity|].
    intros i row before Hrow Hb. rewrite nth_error_logical_or, Hb.
    unfold matches. rewrite nth_error_map, Hrow. reflexivity.
  - eexists. rewrite add_galaxy_spec, any_matches. split; [reflexivity|].
    intros i row before Hrow Hb. rewrite nth_error_logical_or, Hb.
    unfold matches. rewrite nth_error_map, Hrow. reflexivity.
Qed.

Lemma identifier_adds_its_rows_witness :
  exists mask,
    add_group Scenario.results [false; false; true] 10 =
      (Next mask,
       if existsb (fun r => (Descwl.grp_id r =? 10)%Z) Scenario.table
       then [] else [group_warning 10]) /\
    forall i row before,
      nth_error Scenario.table i = Some row ->
      nth_error [false; false; true] i = Some before ->
      nth_error mask i = Some (before || (Descwl.grp_id row =? 10)%Z)%bool.
Proof.
  exact (proj1 (identifier_adds_its_rows Scenario.results [false; false; true] 10 eq_refl)).
Defined.




(** ** The two pixel buffers *)

Lemma includes_intersect (b1 b2 : Galsim.BoundsI) (x y : Z) :
  Galsim.includes (Galsim.intersect b1 b2) x y =
  (Galsim.includes b1 x y && Galsim.includes b2 x y)%bool.
Proof.
  unfold Galsim.intersect, Galsim.includes, Galsim.isDefined, Galsim.undefined.
  destruct b1 as [a1 b1 c1 d1], b2 as [a2 b2 c2 d2]; cbn.
  destruct (Z.leb_spec a1 b1), (Z.leb_spec c1 d1), (Z.leb_spec a2 b2),
    (Z.leb_spec c2 d2); cbn;
    try (destruct (Z.leb_spec (Z.max a1 a2) (Z.min b1 b2)),
           (Z.leb_spec (Z.max c1 c2) (Z.min d1 d2)); cbn);
    repeat match goal with
           | |- context [(?u <=? ?v)%Z] => destruct (Z.leb_spec u v); cbn
           end; try reflexivity; exfalso; lia.
Qed.

Lemma area_positive (b : Galsim.BoundsI) :
  (Galsim.area b >? 0)%Z = Galsim.isDefined b.
Proof.
  unfold Galsim.area, Galsim.isDefined. destruct b as [a b c d]; cbn.
  destruct (Z.leb_spec a b), (Z.leb_spec c d); cbn; try reflexivity.
  apply Z.gtb_lt. nia.
Qed.

Lemma includes_undefined (b : Galsim.BoundsI) (x y : Z) :
  Galsim.isDefined b = false -> Galsim.includes b x y = false.
Proof.
  unfold Galsim.isDefined, Galsim.includes. destruct b as [a b c d]; cbn.
  destruct (Z.leb_spec a b), (Z.leb_spec c d); cbn; try discriminate; intros _;
    repeat match goal with
           | |- context [(?u <=? ?v)%Z] => destruct (Z.leb_spec u v); cbn
           end; try reflexivity; exfalso; lia.
Qed.

Lemma copy_overlap_pixel (dst src : Galsim.Image) (view : Galsim.BoundsI) (x y : Z) :
  Galsim.bounds (copy_overlap dst src view) = Galsim.bounds dst /\
  Galsim.pixel (copy_overlap dst src view) x y =
    if visible view src x y then Galsim.pixel src x y else Galsim.pixel dst x y.
Proof.
  unfold copy_overlap, visible. rewrite area_positive.
  rewrite (andb_comm (Galsim.includes view x y)), <- includes_intersect.
  destruct (Galsim.isDefined (Galsim.intersect (Galsim.bounds src) view)) eqn:Hd.
  - split; reflexivity.
  - rewrite (includes_undefined _ x y Hd). split; reflexivity.
Qed.

Lemma background_buffer_pixel (args : Args) (res : Descwl.Results) (view : Galsim.BoundsI) :
  Galsim.bounds (background_buffer args res view) = view /\
  forall x y,
    Galsim.pixel (background_buffer args res view) x y ==
      (if (negb (hide_background args)
           && visible view (Descwl.image (Descwl.survey res)) x y)%bool
       then Galsim.pixel (Descwl.image (Descwl.survey res)) x y else 0).
Proof.
  unfold background_buffer. split.
  - destruct (hide_background args); cbn [negb]; [reflexivity|].
    exact (proj1 (copy_overlap_pixel _ _ _ 0%Z 0%Z)).
  - intros x y. destruct (hide_background args); cbn [negb andb]; [reflexivity|].
    rewrite (proj2 (copy_overlap_pixel _ _ _ x y)).
    destruct (visible _ _ x y); reflexivity.
Qed.

Lemma highlighted_buffer_pixel (args : Args) (selected : option Galsim.Image)
      (view : Galsim.BoundsI) :
  Galsim.bounds (highlighted_buffer args selected view) = view /\
  forall x y,
    Galsim.pixel (highlighted_buffer args selected view) x y ==
      match selected with
      | Some im =>
          if (negb (hide_selected args) && visible view im x y)%bool
          then Galsim.pixel im x y else 0
      | None => 0
      end.
Proof.
  unfold highlighted_buffer. split.
  - destruct selected as [im|]; [|reflexivity].
    destruct (hide_selected args); cbn [negb]; [reflexivity|].
    exact (proj1 (copy_overlap_pixel _ _ _ 0%Z 0%Z)).
  - intros x y. destruct selected as [im|]; [|reflexivity].
    destruct (hide_selected args); cbn [negb andb]; [reflexivity|].
    rewrite (proj2 (copy_overlap_pixel _ _ _ x y)).
    destruct (visible _ _ x y); reflexivity.
Qed.

(** X11: both buffers have the bounds of the view.  A pixel of the
    background buffer holds the survey pixel at the same position when the
    background is shown and the position lies in the view and in the survey
    image, and 0 otherwise; the highlighted buffer does the same with the
    image of the selected objects, when there is one and it is shown. *)
Theorem buffer_pixels (args : Args) (res : Descwl.Results)
        (selected : option Galsim.Image) (view : Galsim.BoundsI) :
  Galsim.bounds (background_buffer args res view) = view /\
  Galsim.bounds (highlighted_buffer args selected view) = view /\
  forall x y,
    Galsim.pixel (background_buffer args res view) x y ==
      (if (negb (hide_background args)
           && visible view (Descwl.image (Descwl.survey res)) x y)%bool
       then Galsim.pixel (Descwl.image (Descwl.survey res)) x y else 0) /\
    Galsim.pixel (highlighted_buffer args selected view) x y ==
      match selected with
      | Some im =>
          if (negb (hide_selected args) && visible view im x y)%bool
          then Galsim.pixel im x y else 0
      | None => 0
      end.
Proof.
  destruct (background_buffer_pixel args res view) as [Bb Pb].
  destruct (highlighted_buffer_pixel args selected view) as [Bh Ph].
  split; [exact Bb|]. split; [exact Bh|].
  intros x y. split; [apply Pb | apply Ph].
Qed.

Lemma zrange_In (lo hi x : Z) : In x (Galsim.zrange lo hi) <-> (lo <= x <= hi)%Z.
Proof.
  unfold Galsim.zrange. rewrite in_map_iff. split.
  - intros (i & <- & Hi). apply in_seq in Hi. lia.
  - intros H. exists (Z.to_nat (x - lo)). split; [lia|]. apply in_seq. lia.
Qed.

Lemma array_In (im : Galsim.Image) (q : Q) :
  In q (Galsim.array im) <->
  exists x y, Galsim.includes (Galsim.bounds im) x y = true /\ q = Galsim.pixel im x y.
Proof.
  unfold Galsim.array, Galsim.includes. rewrite in_flat_map. split.
  - intros (y & Hy & Hq). apply in_map_iff in Hq. destruct Hq as (x & <- & Hx).
    apply zrange_In in Hy, Hx. exists x, y. split; [|reflexivity].
    repeat (apply andb_true_intro; split); apply Z.leb_le; lia.
  - intros (x & y & Hb & ->).
    repeat (apply andb_true_iff in Hb; destruct Hb as [Hb ?]).
    exists y. split; [apply zrange_In; lia|].
    apply in_map_iff. exists x. split; [reflexivity | apply zrange_In; lia].
Qed.

Lemma all_zero_iff (im : Galsim.Image) :
  all_zero im = true <->
  forall x y, Galsim.includes (Galsim.bounds im) x y = true -> Galsim.pixel im x y == 0.
Proof.
  unfold all_zero. rewrite count_nonzero_0, Forall_forall. split.
  - intros H x y Hb. apply (H (Galsim.pixel im x y)). apply array_In. now exists x, y.
  - intros H q Hq. apply array_In in Hq. destruct Hq as (x & y & Hb & ->). exact (H x y Hb).
Qed.

(** X12: the view is reported empty, with -1, exactly when no selected
    pixel that is shown and lies in the view is non-zero, and the background
    is hidden or no survey pixel in the view is non-zero; otherwise the
    script goes on without printing. *)
Theorem empty_view_from_the_images (args : Args) (res : Descwl.Results)
        (selected : option Galsim.Image) (view : Galsim.BoundsI) :
  let survey_image := Descwl.image (Descwl.survey res) in
  let nothing_selected :=
    match selected with
    | Some im =>
        hide_selected args = true \/
        forall x y, visible view im x y = true -> Galsim.pixel im x y == 0
    | None => True
    end in
  let no_background :=
    hide_background args = true \/
    forall x y, visible view survey_image x y = true -> Galsim.pixel survey_image x y == 0 in
  (nothing_selected /\ no_background ->
   check_not_empty args (background_buffer args res view)
                   (highlighted_buffer args selected view)
   = (Return (-1) EmptyView, [empty_view_message])) /\
  (~ (nothing_selected /\ no_background) ->
   check_not_empty args (background_buffer args res view)
                   (highlighted_buffer args selected view)
   = (Next tt, [])).
Proof.
  intros survey_image nothing_selected no_background.
  destruct (background_buffer_pixel args res view) as [Bb Pb].
  destruct (highlighted_buffer_pixel args selected view) as [Bh Ph].
  pose proof (fun x y => conj (Pb x y) (Ph x y)) as Hpix.
  assert (Hh : all_zero (highlighted_buffer args selected view) = true <-> nothing_selected).
  { rewrite all_zero_iff, Bh. subst nothing_selected. split.
    - intros H. destruct selected as [im|]; [|exact I].
      destruct (hide_selected args) eqn:Hs; [now left|]. right.
      intros x y Hv. unfold visible in Hv. apply andb_true_iff in Hv.
      destruct Hv as [Hv Hi]. specialize (H x y Hv).
      rewrite (proj2 (Hpix x y)) in H. cbn [negb andb] in H.
      unfold visible in H. rewrite Hv, Hi in H. exact H.
    - intros H x y Hv. rewrite (proj2 (Hpix x y)).
      destruct selected as [im|]; [|reflexivity].
      destruct H as [-> | H]; [reflexivity|]. cbn [negb andb].
      destruct (hide_selected args); cbn [negb andb]; [reflexivity|].
      destruct (visible view im x y) eqn:E; [exact (H x y E) | reflexivity]. }
  assert (Hb : (hide_background args || all_zero (background_buffer args res view))%bool = true
               <-> no_background).
  { rewrite orb_true_iff, all_zero_iff, Bb. subst no_background. split.
    - intros [H | H]; [now left|].
      destruct (hide_background args) eqn:Hs; [now left|]. right.
      intros x y Hv. pose proof Hv as Hv'. unfold visible in Hv. apply andb_true_iff in Hv.
      destruct Hv as [Hv Hi]. specialize (H x y Hv).
      rewrite (proj1 (Hpix x y)) in H. cbn [negb andb] in H.
      fold survey_image in H. rewrite Hv' in H. exact H.
    - intros [H | H]; [now left|]. right. intros x y Hv. rewrite (proj1 (Hpix x y)).
      destruct (hide_background args); cbn [negb andb]; [reflexivity|].
      fold survey_image.
      destruct (visible view survey_image x y) eqn:E; [exact (H x y E) | reflexivity]. }
  unfold check_not_empty, empty_view. split.
  - intros [H1 H2]. apply Hh in H1. apply Hb in H2. rewrite H1, H2. reflexivity.
  - intros Hn.
    destruct (all_zero (highlighted_buffer args selected view)) eqn:E1; [|reflexivity].
    destruct (hide_background args || all_zero (background_buffer args res view))%bool eqn:E2;
      [|reflexivity].
    exfalso. apply Hn. split; [apply Hh; reflexivity | apply Hb; reflexivity].
Qed.

(** ** A run of the whole script *)


Lemma scenario_prepare_goes_through :
  exists p out,
    prepare Scenario.collaborators
            (Scenario.options (Some "[-1,1,-1,1]") None [10]%Z [] false false true None)
    = (Next p, out).
Proof. eexists. eexists. reflexivity. Qed.


Lemma prepared_selection_witness :
  exists p : Prepared,
    (exists mask, List.length mask = Descwl.num_objects (results p) /\
                  selected_indices p = Np.where_true mask) /\
    (forall i, In i (selected_indices p) ->
               exists row, nth_error (Descwl.table (results p)) i = Some row) /\
    (selected_indices p <> [] -> Descwl.stamps (results p) = true).
Proof.
  destruct scenario_prepare_goes_through as (p & out & H). exists p.
  exact (prepared_selection Scenario.collaborators
           (Scenario.options (Some "[-1,1,-1,1]") None [10]%Z [] false false true None)
           p out H).
Defined.

(** ** The scaled layers and the blended image *)















(** ** What is drawn, and in which order *)

Lemma unescape_falsy (C : Collaborators) (s : option string) :
  truthy_str s = false -> unescape C s = None \/ unescape C s = Some ""%string.
Proof.
  destruct s as [[|c t]|]; cbn; intros H; [now right | discriminate H | now left].
Qed.

Lemma annotate_marks C args res det f1 f2 o i sel o' out :
  annotate C args res det f1 f2 o (i, sel) = (Next o', out) ->
  exists info rest,
    nth_error (Descwl.table res) sel = Some info /\
    calls o' = (calls o ++ rest)%list /\
    Forall (fun d => (is_plot d || is_annotate d)%bool = true) rest /\
    filter is_crosshair rest =
      (if no_crosshair args then [] else [crosshair args (Descwl.survey res) info]) /\
    (no_crosshair args = true -> filter is_plot rest = []) /\
    ((f1 = None \/ f1 = Some ""%string) -> (f2 = None \/ f2 = Some ""%string) ->
     filter is_annotate rest = []).
Proof.
  intros H. unfold annotate, lookup_match, match_center in H.
  destruct (nth_error (Descwl.table res) sel) as [info|]; [|discriminate H].
  exists info. unfold crosshair.
  destruct (no_crosshair args), f1 as [[|c1 t1]|], f2 as [[|c2 t2]|];
    step_cases H; injection H as <- _;
    try match goal with E : center _ _ = _ |- _ => rewrite E end; cbn [fst snd];
    rewrite ?calls_store_match, ?calls_store_ellipse; cbn [calls call];
    rewrite <- ?app_assoc;
    (eexists; split; [reflexivity|];
     split; [first [reflexivity | symmetry; apply app_nil_r]|]).
  all: cbn.
  all: split; [repeat constructor|].
  all: split; [reflexivity|].
  all: split; [intros; try discriminate; reflexivity|].
  all: intros [Hf1 | Hf1] [Hf2 | Hf2]; try discriminate; reflexivity.
Qed.

Lemma annotate_loop_marks C args res det f1 f2 (l : list nat) :
  forall i0 o o' out,
    foldM (annotate C args res det f1 f2) (enumerate_from i0 l) o = (Next o', out) ->
    exists rows marks,
      rows_at (Descwl.table res) l rows /\
      calls o' = (calls o ++ marks)%list /\
      Forall (fun d => (is_plot d || is_annotate d)%bool = true) marks /\
      filter is_crosshair marks =
        (if no_crosshair args then []
         else map (crosshair args (Descwl.survey res)) rows) /\
      (no_crosshair args = true -> filter is_plot marks = []) /\
      ((f1 = None \/ f1 = Some ""%string) -> (f2 = None \/ f2 = Some ""%string) ->
       filter is_annotate marks = []).
Proof.
  induction l as [|sel t IH]; intros i0 o o' out H; cbn [enumerate_from foldM] in H.
  - injection H as <- _. exists [], []. split; [constructor|].
    split; [symmetry; apply app_nil_r|]. split; [constructor|].
    split; [destruct (no_crosshair args); reflexivity|]. split; reflexivity.
  - apply bind_next in H. destruct H as (o1 & out1 & out2 & H1 & H2 & _).
    apply annotate_marks in H1.
    destruct H1 as (info & rest & Hrow & E1 & F1 & X1 & P1 & A1).
    apply IH in H2. destruct H2 as (rows & marks & Hrows & E2 & F2 & X2 & P2 & A2).
    exists (info :: rows), (rest ++ marks)%list.
    split; [constructor; assumption|].
    split; [rewrite E2, E1; symmetry; apply app_assoc|].
    split; [apply Forall_app; split; assumption|].
    rewrite !filter_app, X1, X2.
    split; [destruct (no_crosshair args); reflexivity|]. split.
    + intros Hc. rewrite (P1 Hc), (P2 Hc). reflexivity.
    + intros Hf1 Hf2. rewrite (A1 Hf1 Hf2), (A2 Hf1 Hf2). reflexivity.
Qed.

Lemma draw_ellipses_calls (args : Args) (o : Overlay) :
  exists ellipses,
    calls (draw_ellipses args o) = (calls o ++ ellipses)%list /\
    Forall (fun d => is_ellipses d = true) ellipses /\
    (List.length ellipses <= 2)%nat /\
    (draw_moments args = false -> ellipses = []) /\
    (draw_moments args = true -> ellipses <> []).
Proof.
  unfold draw_ellipses. destruct (draw_moments args).
  - destruct (0 <? _)%nat; cbn [calls call]; rewrite <- ?app_assoc;
      eexists; (split; [reflexivity|]); cbn;
      repeat split; repeat constructor; try discriminate.
  - exists []. split; [symmetry; apply app_nil_r|].
    repeat split; try constructor; try discriminate. cbn. lia.
Qed.

Lemma output_calls (args : Args) (o : Overlay) :
  exists outputs,
    calls (let o := match output_name args with
                    | Some (String _ _ as name) => call (Savefig name (dpi args)) o
                    | _ => o
                    end in
           if no_display args then o else call Show o) = (calls o ++ outputs)%list /\
    outputs =
      ((if truthy_str (output_name args)
        then match output_name args with
             | Some name => [Savefig name (dpi args)]
             | None => []
             end
        else []) ++ (if no_display args then [] else [Show]))%list.
Proof.
  destruct (output_name args) as [[|c t]|], (no_display args); cbn [calls call truthy_str];
    rewrite <- ?app_assoc; eexists; (split; [|reflexivity]); cbn [app];
    first [reflexivity | symmetry; apply app_nil_r].
Qed.

(** X16: a figure that is drawn holds, in this order: the blended image
    over the bounds of the view; the markers and labels of the selected
    objects; the ellipse collections; the file written; the window shown.
    One crosshair is drawn per selected object, at the centre of its table
    row and in table order, unless [--no-crosshair] is given, in which case
    no marker at all is drawn.  No label is drawn when neither format is
    given; ellipse collections are drawn exactly when [--draw-moments] is
    given; the file is written exactly when an output name is given, with
    the dpi of the options; the window is shown unless [--no-display]. *)
Theorem drawing_order (C : Collaborators) (args : Args) (p : Prepared) (fig : Figure)
        (out : list string) :
  draw C args p = (Next fig, out) ->
  exists rows marks ellipses,
    drawn fig =
      (shown_image C args p (percentile_source (results p) (selected_image p))
         :: marks ++ ellipses
         ++ (if truthy_str (output_name args)
             then match output_name args with
                  | Some name => [Savefig name (dpi args)]
                  | None => []
                  end
             else [])
         ++ (if no_display args then [] else [Show]))%list /\
    rows_at (Descwl.table (results p)) (selected_indices p) rows /\
    Forall (fun d => (is_plot d || is_annotate d)%bool = true) marks /\
    filter is_crosshair marks =
      (if no_crosshair args then []
       else map (crosshair args (Descwl.survey (results p))) rows) /\
    (no_crosshair args = true -> filter is_plot marks = []) /\
    (truthy_str (info args) = false -> truthy_str (match_info args) = false ->
     filter is_annotate marks = []) /\
    Forall (fun d => is_ellipses d = true) ellipses /\
    (List.length ellipses <= 2)%nat /\
    (draw_moments args = false -> ellipses = []) /\
    (draw_moments args = true -> ellipses <> []).
Proof.
  intros H. apply draw_next in H.
  destruct H as (pixels & out1 & o' & out2 & Hp & Hl & _ & Hd).
  rewrite zscale_pixels_spec in Hp. injection Hp as <- _.
  apply annotate_loop_marks in Hl.
  destruct Hl as (rows & marks & Hrows & E & F & X & P & A).
  destruct (draw_ellipses_calls args o') as (ellipses & Ee & Fe & Le & Ne & Ye).
  destruct (output_calls args (draw_ellipses args o')) as (outputs & Eo & ->).
  exists rows, marks, ellipses.
  split.
  - cbv zeta in Hd, Eo. rewrite Hd, Eo, Ee, E. cbn [calls call new_overlay app].
    rewrite <- !app_assoc. reflexivity.
  - repeat (split; [assumption|]).
    split; [|repeat split; assumption].
    intros H1 H2. apply A; apply unescape_falsy; assumption.
Qed.

Lemma scenario_draw_unmatched :
  exists fig,
    draw Scenario.collaborators (Scenario.options None None [] [] false false true None)
         Scenario.prepared = (Next fig, []).
Proof. eexists. reflexivity. Qed.

Lemma drawing_order_witness :
  exists (fig : Figure) rows marks ellipses,
    drawn fig =
      (shown_image Scenario.collaborators
                   (Scenario.options None None [] [] false false true None)
                   Scenario.prepared
                   (percentile_source (results Scenario.prepared)
                                      (selected_image Scenario.prepared))
         :: marks ++ ellipses ++ [] ++ [Show])%list /\
    rows_at Scenario.table [0; 2]%nat rows /\
    filter is_crosshair marks =
      map (crosshair (Scenario.options None None [] [] false false true None)
                     Scenario.survey) rows /\
    filter is_annotate marks = [] /\
    ellipses <> [].
Proof.
  destruct scenario_draw_unmatched as (fig & H).
  destruct (drawing_order _ _ _ _ _ H)
    as (rows & marks & ellipses & Hd & Hr & _ & Hx & _ & Ha & _ & _ & _ & He).
  exists fig, rows, marks, ellipses.
  split; [exact Hd|]. split; [exact Hr|]. split; [exact Hx|].
  split; [exact (Ha eq_refl eq_refl) | exact (He eq_refl)].
Defined.

(** ** A format that cannot be filled in *)

Lemma annotate_label C args res det c t f2 o i sel info :
  truthy_str (match_catalog args) = false ->
  nth_error (Descwl.table res) sel = Some info ->
  (interpolate_row C (String c t) info = None /\
   annotate C args res det (Some (String c t)) f2 o (i, sel) =
     (Return (-1) InvalidAnnotateFormat,
      [("Invalid annotate-format " ++ repr C (String c t))%string])) \/
  (interpolate_row C (String c t) info <> None /\
   exists o', annotate C args res det (Some (String c t)) f2 o (i, sel) = (Next o', [])).
Proof.
  intros Hm Hrow. unfold annotate, lookup_match. rewrite Hrow, Hm.
  cbn [andb bind ret]. destruct (center (Descwl.survey res) info) as [cx cy].
  cbn [bind ret].
  destruct (interpolate_row C (String c t) info) as [text|].
  - right. split; [discriminate|].
    destruct (no_crosshair args), f2 as [[|c2 t2]|], (draw_moments args);
      cbn; eexists; reflexivity.
  - left. split; [reflexivity|].
    destruct (no_crosshair args); reflexivity.
Qed.

Lemma annotate_loop_label C args res det c t f2 (l : list nat) :
  truthy_str (match_catalog args) = false ->
  forall i0 o,
    (forall sel, In sel l -> exists row, nth_error (Descwl.table res) sel = Some row) ->
    (exists sel row, In sel l /\ nth_error (Descwl.table res) sel = Some row /\
                     interpolate_row C (String c t) row = None) ->
    foldM (annotate C args res det (Some (String c t)) f2) (enumerate_from i0 l) o =
      (Return (-1) InvalidAnnotateFormat,
       [("Invalid annotate-format " ++ repr C (String c t))%string]).
Proof.
  intros Hm. induction l as [|sel rest IH]; intros i0 o Hrows (bad & row & Hin & Hrow & Hbad).
  - destruct Hin.
  - cbn [enumerate_from foldM].
    destruct (Hrows sel (or_introl eq_refl)) as (info & Hinfo).
    destruct (annotate_label C args res det c t f2 o i0 sel info Hm Hinfo)
      as [[_ ->] | [Hok [o' ->]]]; [reflexivity|].
    cbn [bind]. rewrite IH; [reflexivity | |].
    + intros s Hs. apply Hrows. now right.
    + destruct Hin as [<- | Hin]; [congruence|]. now exists bad, row.
Qed.

(** X17: without a detection catalog, an annotation format that cannot be
    filled in for one of the selected objects ends the script with -1:
    after the output of the first part and the z-scaling warning, if any,
    the one line 'Invalid annotate-format <repr of the format>' is printed,
    and no figure is written or shown, whichever object fails. *)
Theorem invalid_annotate_format (C : Collaborators) (args : Args) (p : Prepared)
        (out : list string) (fmt : string) :
  prepare C args = (Next p, out) ->
  empty_view args (background args p) (highlighted args p) = false ->
  truthy_str (match_catalog args) = false ->
  unescape C (info args) = Some fmt -> fmt <> ""%string ->
  (exists sel row, In sel (selected_indices p) /\
                   nth_error (Descwl.table (results p)) sel = Some row /\
                   interpolate_row C fmt row = None) ->
  main C args =
    (Return (-1) InvalidAnnotateFormat,
     (out ++ fallback_warning (selected_image p)
          ++ [("Invalid annotate-format " ++ repr C fmt)%string])%list).
Proof.
  intros Hp He Hm Hf Hne Hbad.
  destruct fmt as [|c t]; [contradiction|].
  destruct (prepared_rows C args p out Hp) as (_ & _ & _ & Hrows & _).
  unfold main. rewrite Hp. cbn [bind].
  unfold check_not_empty. rewrite He. cbn [bind ret app].
  unfold draw. rewrite zscale_pixels_spec. cbn [bind]. rewrite Hf.
  rewrite (annotate_loop_label C args (results p) (detected p) c t _ _ Hm _ _ Hrows Hbad).
  cbn [bind]. reflexivity.
Qed.

Lemma scenario_prepare_labelled :
  exists p out,
    prepare FormatScenario.collaborators FormatScenario.options = (Next p, out) /\
    empty_view FormatScenario.options (background FormatScenario.options p)
               (highlighted FormatScenario.options p) = false /\
    selected_indices p = [0; 1; 2]%nat /\ results p = Scenario.results /\
    selected_image p =
      Some (Galsim.mkImage (Galsim.mkBoundsI 46 53 46 53) (fun _ _ => 2)) /\
    out = [].
Proof.
  eexists. eexists. split; [reflexivity|]. split; [vm_compute; reflexivity|].
  repeat split; reflexivity.
Qed.

Lemma invalid_annotate_format_witness :
  main FormatScenario.collaborators FormatScenario.options =
    (Return (-1) InvalidAnnotateFormat, ["Invalid annotate-format '%(db_id)d'"%string]).
Proof.
  destruct scenario_prepare_labelled as (p & out & Hp & He & Hi & Hr & Hs & ->).
  rewrite (invalid_annotate_format FormatScenario.collaborators FormatScenario.options
             p [] "%(db_id)d" Hp).
  - rewrite Hs. reflexivity.
  - exact He.
  - reflexivity.
  - reflexivity.
  - discriminate.
  - exists 2%nat, (Descwl.mkRow 3 20 1 1 2 1 0 (-1)).
    rewrite Hi, Hr. split; [right; right; left; reflexivity|]. split; reflexivity.
Defined.

(** ** The whole selection *)

Section Union.

Variable table : list Descwl.Row.
Variable key : Descwl.Row -> Z.
Variable step : list bool -> Z -> M (list bool).
Variable warning : Z -> string.

Hypothesis step_spec :
  forall selection identifier,
    step selection identifier =
      (Next (Np.logical_or selection (matches table key identifier)),
       if Np.any (matches table key identifier) then [] else [warning identifier]).

Lemma loop_union (l : list Z) :
  forall selection m out,
    foldM step l selection = (Next m, out) ->
    out = map warning (missing table key l) /\
    forall i row before,
      nth_error table i = Some row ->
      nth_error selection i = Some before ->
      nth_error m i = Some (before || listed key l row)%bool.
Proof.
  induction l as [|x t IH]; intros selection m out H; cbn [foldM] in H.
  - injection H as <- <-. split; [reflexivity|].
    intros i row before _ Hb. rewrite Hb. cbn. now rewrite orb_false_r.
  - rewrite step_spec in H. apply bind_next in H.
    destruct H as (m1 & o1 & o2 & H1 & H2 & ->). injection H1 as <- <-.
    apply IH in H2. destruct H2 as [-> Hm]. split.
    + unfold missing. cbn [filter]. rewrite <- any_matches.
      destruct (Np.any (matches table key x)); reflexivity.
    + intros i row before Hrow Hb.
      rewrite (Hm i row (before || (key row =? x)%Z)%bool Hrow).
      * cbn [listed existsb]. now rewrite orb_assoc.
      * rewrite nth_error_logical_or, Hb. unfold matches.
        rewrite nth_error_map, Hrow. reflexivity.
Qed.

End Union.

(** X18: when the selection goes through, a table row is selected exactly
    when it passes the cuts (all of them; none when there is no cut), or
    its [grp_id] is one of the [--group] identifiers, or its [db_id] is one
    of the [--galaxy] identifiers.  The lines printed are one warning per
    group identifier that no row carries, in the order given, and then one
    per such galaxy identifier. *)
Theorem selection_is_union (res : Descwl.Results) (cuts : list string)
        (groups galaxies : list Z) (mask : list bool) (out : list string) :
  select_objects res cuts groups galaxies = (Next mask, out) ->
  exists first,
    initial_selection res cuts = (Next first, []) /\
    (forall i row cut,
       nth_error (Descwl.table res) i = Some row ->
       nth_error first i = Some cut ->
       nth_error mask i =
         Some (cut || listed Descwl.grp_id groups row
                   || listed Descwl.db_id galaxies row)%bool) /\
    out = (map group_warning (missing (Descwl.table res) Descwl.grp_id groups)
           ++ map galaxy_warning (missing (Descwl.table res) Descwl.db_id galaxies))%list.
Proof.
  unfold select_objects. intros H.
  apply bind_next in H. destruct H as (m0 & o0 & o0' & H0 & H & ->).
  apply bind_next in H. destruct H as (m1 & o1 & o1' & H1 & H2 & ->).
  destruct (initial_selection_length _ _ _ _ H0) as [Hl0 ->].
  apply (loop_union _ _ _ _ (add_group_spec res)) in H1. destruct H1 as [-> Hg].
  apply (loop_union _ _ _ _ (add_galaxy_spec res)) in H2. destruct H2 as [-> Hy].
  exists m0. split; [exact H0|]. split; [|reflexivity].
  intros i row cut Hrow Hcut. apply (Hy i row _ Hrow), (Hg i row cut Hrow Hcut).
Qed.

Lemma selection_is_union_witness :
  exists first,
    initial_selection Scenario.results ["dx>=0.5"%string] = (Next first, []) /\
    (forall i row cut,
       nth_error Scenario.table i = Some row ->
       nth_error first i = Some cut ->
       nth_error [true; true; true] i =
         Some (cut || listed Descwl.grp_id [10; 11]%Z row
                   || listed Descwl.db_id [7]%Z row)%bool) /\
    [group_warning 11; galaxy_warning 7] =
      (map group_warning (missing Scenario.table Descwl.grp_id [10; 11]%Z)
       ++ map galaxy_warning (missing Scenario.table Descwl.db_id [7]%Z))%list.
Proof.
  apply (selection_is_union Scenario.results ["dx>=0.5"%string] [10; 11]%Z [7]%Z).
  reflexivity.
Defined.

(** ** Defaults, cropping and the early guards *)

Lemma where_true_all_false (n : nat) : Np.where_true (repeat false n) = [].
Proof.
  apply any_where_true. unfold Np.any. induction n as [|n IH]; [reflexivity | exact IH].
Qed.

(** X19: nothing is selected by default: without [--select],
    [--select-region], [--group] and [--galaxy] the first part of [main]
    hands over an empty list of selected objects, and the sub-image asked of
    the results is the one of no object. *)
Theorem nothing_selected_by_default (C : Collaborators) (args : Args) (p : Prepared)
        (out : list string) :
  prepare C args = (Next p, out) ->
  select args = [] -> truthy_str (select_region args) = false ->
  group args = [] -> galaxy args = [] ->
  selected_indices p = [] /\
  selected_image p = get_subimage C (results p) [].
Proof.
  intros H Hs Hr Hg Hy. apply prepare_next in H.
  destruct H as (_ & _ & r0 & cuts & sel & o1 & o2 & o3 & _ & _ & Hc & Hsel & _ & Hi & Him & _).
  assert (Ec : cuts = []).
  { unfold extend_select in Hc. destruct (select_region args) as [[|c t]|];
      try discriminate Hr; injection Hc as <- _; exact Hs. }
  subst cuts. unfold perform_selection, select_objects in Hsel.
  rewrite Hg, Hy in Hsel. cbn in Hsel. injection Hsel as <- _.
  rewrite map_const in Hi. rewrite where_true_all_false in Hi.
  rewrite Hi in Him. split; assumption.
Qed.

Lemma scenario_prepare_default :
  exists p out,
    prepare Scenario.collaborators (Scenario.options None None [] [] false false true None)
    = (Next p, out).
Proof. eexists. eexists. reflexivity. Qed.

Lemma nothing_selected_by_default_witness :
  exists p : Prepared,
    selected_indices p = [] /\
    selected_image p = get_subimage Scenario.collaborators (results p) [].
Proof.
  destruct scenario_prepare_default as (p & out & H). exists p.
  exact (nothing_selected_by_default Scenario.collaborators
           (Scenario.options None None [] [] false false true None) p out H
           eq_refl eq_refl eq_refl eq_refl).
Defined.

(** X20: without a view region, [--crop] with selected objects makes the
    view the bounds of their image: the axes span as many units as there
    are pixel columns and rows, and, unless the selection is hidden, the
    highlighted buffer is that image pixel for pixel.  Without selected
    objects, or without [--crop], the view is the whole survey image, with
    axes from 0 to the image width and height.  Neither case prints or
    fails. *)
Theorem view_without_region (args : Args) (res : Descwl.Results)
        (selected : option Galsim.Image) :
  view_region args = None ->
  exists v,
    resolve_view args res selected = (Next v, []) /\
    match selected with
    | Some im =>
        if crop args then
          view_bounds v = Galsim.bounds im /\
          vxmax v - vxmin v ==
            inject_Z (Galsim.xmax (Galsim.bounds im) - Galsim.xmin (Galsim.bounds im) + 1) /\
          vymax v - vymin v ==
            inject_Z (Galsim.ymax (Galsim.bounds im) - Galsim.ymin (Galsim.bounds im) + 1) /\
          (hide_selected args = false ->
           forall x y, Galsim.includes (Galsim.bounds im) x y = true ->
                       Galsim.pixel (highlighted_buffer args selected (view_bounds v)) x y
                       == Galsim.pixel im x y)
        else
          v = mkView (Galsim.bounds (Descwl.image (Descwl.survey res)))
                     0 (inject_Z (Descwl.image_width (Descwl.survey res)))
                     0 (inject_Z (Descwl.image_height (Descwl.survey res)))
    | None =>
        v = mkView (Galsim.bounds (Descwl.image (Descwl.survey res)))
                   0 (inject_Z (Descwl.image_width (Descwl.survey res)))
                   0 (inject_Z (Descwl.image_height (Descwl.survey res)))
    end.
Proof.
  intros Hv. unfold resolve_view. rewrite Hv.
  destruct selected as [im|], (crop args) eqn:Hc; eexists; (split; [reflexivity|]);
    try reflexivity.
  cbn [view_of_bounds view_bounds vxmin vxmax vymin vymax].
  split; [reflexivity|]. unfold Qminus. rewrite <- !inject_Z_opp, <- !inject_Z_plus.
  split; [apply inject_Z_injective; lia|]. split; [apply inject_Z_injective; lia|].
  intros Hh x y Hin.
  rewrite (proj2 (highlighted_buffer_pixel args (Some im) (Galsim.bounds im)) x y).
  unfold visible. rewrite Hh, Hin. reflexivity.
Qed.

Lemma view_without_region_witness :
  exists v,
    resolve_view (Scenario.options None None [] [] false false true None) Scenario.results
                 None = (Next v, []) /\
    v = mkView (Galsim.mkBoundsI 0 99 0 99) 0 (inject_Z 100) 0 (inject_Z 100).
Proof.
  exact (view_without_region (Scenario.options None None [] [] false false true None)
           Scenario.results None eq_refl).
Defined.



(** X22: the guards on the options come first and in this order, before
    anything is loaded: with [--no-display] and no output name the script
    prints its message and returns 0; otherwise, with both layers hidden, it
    prints the other message and returns 0; otherwise a loader that fails is
    reported by its own message with -1.  In each case nothing else is
    printed. *)
Theorem option_guards (C : Collaborators) (args : Args) :
  (no_display args = true -> truthy_str (output_name args) = false ->
   main C args = (Return 0 NothingRequested, ["No display our output requested."%string])) /\
  ((no_display args = false \/ truthy_str (output_name args) = true) ->
   hide_background args = true -> hide_selected args = true ->
   main C args =
     (Return 0 NoPixelsVisible,
      ["No pixels visible with --hide-background and --hide-selected."%string])) /\
  ((no_display args = false \/ truthy_str (output_name args) = true) ->
   (hide_background args = false \/ hide_selected args = false) ->
   forall msg, from_args C args = inl msg ->
               main C args = (Return (-1) LoadFailed, [msg])).
Proof.
  unfold main, prepare. split; [|split].
  - intros -> ->. reflexivity.
  - intros H -> ->.
    destruct H as [-> | ->]; [|destruct (no_display args)]; reflexivity.
  - intros H H' msg ->.
    assert (E1 : (no_display args && negb (truthy_str (output_name args)))%bool = false)
      by (destruct H as [-> | ->]; [|destruct (no_display args)]; reflexivity).
    assert (E2 : (hide_background args && hide_selected args)%bool = false)
      by (destruct H' as [-> | ->]; [|destruct (hide_background args)]; reflexivity).
    rewrite E1, E2. reflexivity.
Qed.
